(** * Story node management bot: sync tracking and periodic monitoring

    A shallow embedding of the synchronisation-tracking and monitoring core
    of the bot:

    - [utils/helpers.py]                ([split_message]),
    - [services/sync_service.py]        ([SyncMonitor]),
    - [services/monitoring_service.py]  ([MonitoringService]).

    Modelling conventions.

    - A Python [str] is a list of characters; [len], slicing [s[:i]],
      [s[i:]] are [length], [take i], [drop i].
    - A Python [int] is a [Z].
    - A Python [float] is modelled by an exact rational [Q], and [/] by
      exact division that raises on a zero divisor: the rounding and the
      overflow of binary64 are outside the model.  What is proved of
      [sync_percent] and [sync_speed] rests on the tests the code makes
      ([> 0], [min(99.99, _)]), not on the digits of a quotient.
    - A [datetime] is a number of microseconds ([Z]); the reading of the
      clock ([datetime.now()]) is an explicit argument.
    - A [while] loop is a function with a fuel argument that answers [None]
      when the fuel is exhausted.
    - An operation that can raise answers in [result]. *)

From Stdlib Require Import ZArith QArith Qround Qminmax Ascii String List Lia Bool.
From stdpp Require Import base tactics option list gmap strings pretty.

Local Open Scope nat_scope.

(** * utils/helpers.py *)

Module Helpers.

Abbreviation str := (list ascii).

Definition newline : ascii := "010"%char.

(** Left-to-right scan that remembers the last position holding [c];
    [i] is the index of the head of [s], [found] the answer so far. *)
Fixpoint rfind_scan (c : ascii) (s : str) (i : Z) (found : Z) : Z :=
  match s with
  | [] => found
  | x :: t => rfind_scan c t (i + 1) (if Ascii.eqb x c then i else found)
  end.

(** [s.rfind(c, start, stop)] for [0 <= start] and [0 <= stop]: the highest
    index in the slice [s[start:stop]] that holds [c], or [-1]. *)
Definition rfind (s : str) (c : ascii) (start stop : nat) : Z :=
  rfind_scan c (take (stop - start) (drop start s)) (Z.of_nat start) (-1).

(** The index at which one iteration of the loop cuts [message]:
    [[
        split_index = message.rfind('\n', 0, max_length)
        if split_index == -1:
            split_index = max_length
    ]] *)
Definition split_index (message : str) (max_length : nat) : Z :=
  let split_index := rfind message newline 0 max_length in
  if (split_index =? -1)%Z then Z.of_nat max_length else split_index.

(** The [while len(message) > max_length] loop, followed by the final
    [parts.append(message)]. *)
Fixpoint split_loop (fuel : nat) (max_length : nat) (parts : list str)
    (message : str) : option (list str) :=
  match fuel with
  | O => None
  | S fuel' =>
      if max_length <? length message then
        let i := Z.to_nat (split_index message max_length) in
        split_loop fuel' max_length (parts ++ [take i message]) (drop i message)
      else Some (parts ++ [message])
  end.

(** [split_message(message, max_length)].  An iteration that makes progress
    removes at least one character, so [S (length message)] iterations are
    enough whenever the loop finishes at all ([split_loop_fuel_enough]). *)
Definition split_message (message : str) (max_length : nat) : option (list str) :=
  split_loop (S (length message)) max_length [] message.

Definition default_max_length : nat := 4000.

(** The parts of [message], described cut by cut: every cut is at the last
    newline of the first [max_length] characters of what remains, and, when
    those hold no newline, after exactly [max_length] characters. *)
Inductive split_spec (max_length : nat) : str -> list str -> Prop :=
| split_fits m :
    length m <= max_length -> split_spec max_length m [m]
| split_at_newline m i rest :
    max_length < length m ->
    i < max_length ->
    m !! i = Some newline ->
    newline ∉ take (max_length - S i) (drop (S i) m) ->
    split_spec max_length (drop i m) rest ->
    split_spec max_length m (take i m :: rest)
| split_hard m rest :
    max_length < length m ->
    newline ∉ take max_length m ->
    split_spec max_length (drop max_length m) rest ->
    split_spec max_length m (take max_length m :: rest).

(** Every part after the first begins with a newline. *)
Definition only_newline_cuts (parts : list str) : Prop :=
  Forall (fun p => head p = Some newline) (tail parts).

(** A remainder on which an iteration removes nothing. *)
Definition stuck (max_length : nat) (message : str) : bool :=
  (max_length <? length message) && (split_index message max_length =? 0)%Z.

(** No suffix of [message] is a stuck remainder. *)
Definition no_stuck_suffix (max_length : nat) (message : str) : bool :=
  forallb (fun k => negb (stuck max_length (drop k message)))
          (seq 0 (S (length message))).

(** The message renderer's property as the specification words it, at the
    default limit: a text longer than the limit comes back in parts of at
    most [max_length] characters, cut at newlines only, whose concatenation
    is the text. *)
Definition newline_cuts_claim : Prop :=
  forall message : str,
    default_max_length < length message ->
    exists parts,
      split_message message default_max_length = Some parts /\
      Forall (fun p => length p <= default_max_length) parts /\
      only_newline_cuts parts /\
      concat parts = message.

(** 4001 characters, none of them a newline. *)
Definition one_long_line : str := repeat "a"%char 4001.

(** A newline followed by a line of 4000 characters. *)
Definition newline_then_long_line : str := newline :: repeat "a"%char 4000.

(** Fifty lines of 99 characters, each ended by a newline: 5000
    characters. *)
Definition fifty_lines : str :=
  concat (repeat (repeat "a"%char 99 ++ [newline]) 50).

(** Four short lines. *)
Definition short_lines : str :=
  list_ascii_of_string "ab" ++ [newline] ++ list_ascii_of_string "cd"
  ++ [newline] ++ list_ascii_of_string "ef" ++ [newline]
  ++ list_ascii_of_string "gh".

End Helpers.

(** * services/sync_service.py *)

Module SyncService.

Local Open Scope Q_scope.

(** Exceptions the modelled code can meet. *)
Inductive exn :=
| ClientConnectorError (detail : string) (* aiohttp: the endpoint is unreachable *)
| ContentTypeError                       (* [response.json()] on a body that is not JSON *)
| KeyError (key : string)
| ValueError
| OverflowError
| ZeroDivisionError
| Exception (msg : string).

Inductive result (A : Type) : Type :=
| Ok (a : A)
| Raise (e : exn).
Arguments Ok {A} a.
Arguments Raise {A} e.

(** A [datetime], in microseconds. *)
Abbreviation datetime := Z.

(** The reference endpoints and the local node's [/status] URL. *)
Inductive endpoint := RPC_ENDPOINT_1 | RPC_ENDPOINT_2 | LOCAL_NODE.

(** What a call leaves behind: requests sent and log records written. *)
Inductive event :=
| Requested (e : endpoint)
| LogWarning (e : endpoint)
| LogError.

(** The attributes of a [SyncMonitor]. *)
Record SyncMonitor := {
  last_height : Z;
  last_check_time : option datetime;
  sync_speed : Q                        (* blocks per second *)
}.

(** [SyncMonitor()] (lines 16-19). *)
Definition SyncMonitor_new : SyncMonitor :=
  {| last_height := 0; last_check_time := None; sync_speed := 0 |}.

(** What a method of [SyncMonitor] can change: the object [self], and the
    trace of requests and log records, oldest first. *)
Record State := {
  self : SyncMonitor;
  trace : list event
}.

(** A method: from a state to a state, returning a value or raising. *)
Definition M (A : Type) : Type := State -> State * result A.

#[global] Instance M_ret : MRet M := fun A a st => (st, Ok a).

#[global] Instance M_bind : MBind M := fun A B k m st =>
  match m st with
  | (st', Ok a) => k a st'
  | (st', Raise e) => (st', Raise e)
  end.

Definition raise {A} (e : exn) : M A := fun st => (st, Raise e).

(** [try: body / except Exception as e: handler e]. *)
Definition try_except {A} (body : M A) (handler : exn -> M A) : M A :=
  fun st =>
    match body st with
    | (st', Raise e) => handler e st'
    | r => r
    end.

Definition lift {A} (r : result A) : M A := fun st => (st, r).

Definition get_self : M SyncMonitor := fun st => (st, Ok (self st)).

Definition set_last_height (h : Z) : M unit := fun st =>
  ({| self := {| last_height := h;
                 last_check_time := last_check_time (self st);
                 sync_speed := sync_speed (self st) |};
      trace := trace st |}, Ok tt).

Definition set_last_check_time (t : datetime) : M unit := fun st =>
  ({| self := {| last_height := last_height (self st);
                 last_check_time := Some t;
                 sync_speed := sync_speed (self st) |};
      trace := trace st |}, Ok tt).

Definition set_sync_speed (v : Q) : M unit := fun st =>
  ({| self := {| last_height := last_height (self st);
                 last_check_time := last_check_time (self st);
                 sync_speed := v |};
      trace := trace st |}, Ok tt).

Definition emit (e : event) : M unit := fun st =>
  ({| self := self st; trace := trace st ++ [e] |}, Ok tt).

(** [timedelta.total_seconds()] of a difference of [d] microseconds. *)
Definition total_seconds (d : Z) : Q := d # 1000000.

(** [x < y] on numbers. *)
Definition Qltb (x y : Q) : bool :=
  match x ?= y with Lt => true | _ => false end.

(** [x / y]. *)
Definition truediv (x y : Q) : result Q :=
  if Qeq_bool y 0 then Raise ZeroDivisionError else Ok (x / y).

(** [int(x)]: truncation towards zero. *)
Definition Qtrunc (x : Q) : Z := Z.quot (Qnum x) (Z.pos (Qden x)).

(** Nearest integer, ties to the even one. *)
Definition round_half_even (x : Q) : Z :=
  let f := Qfloor x in
  match ((x - inject_Z f) ?= (1 # 2))%Q with
  | Lt => f
  | Gt => (f + 1)%Z
  | Eq => if Z.even f then f else (f + 1)%Z
  end.

(** [round(x, 2)]. *)
Definition round2 (x : Q) : Q := round_half_even (x * 100) # 100.

(** [%02d] of a number in [0, 60). *)
Definition two_digits (n : Z) : string :=
  if (n <? 10)%Z then "0" +:+ pretty n else pretty n.

(** [str(timedelta(seconds=s))]; [timedelta] refuses more than 999999999
    days. *)
Definition timedelta_str (s : Z) : result string :=
  let days := (s / 86400)%Z in
  let seconds := (s mod 86400)%Z in
  if (999999999 <? Z.abs days)%Z then Raise OverflowError
  else
    let mm := (seconds / 60)%Z in
    let ss := (seconds mod 60)%Z in
    let hh := (mm / 60)%Z in
    let mm := (mm mod 60)%Z in
    let hms := pretty hh +:+ ":" +:+ two_digits mm +:+ ":" +:+ two_digits ss in
    Ok (if (days =? 0)%Z then hms
        else pretty days
             +:+ (if (Z.abs days =? 1)%Z then " day, " else " days, ")
             +:+ hms).

(** [result.sync_info.latest_block_height] of a status document, as
    [int(...)] sees it: the key is missing, its value is not an integer
    literal, or it reads as [h]. *)
Inductive height_field :=
| HeightMissing
| HeightInvalid
| HeightValue (h : Z).

(** The two fields the code reads from a status document; [catching_up] is
    [None] when the key is missing. *)
Record StatusDocument := {
  latest_block_height : height_field;
  catching_up : option bool
}.

(** What one GET yields: no connection, or a response with its status code
    and its body ([None]: the body is not JSON). *)
Inductive http_result :=
| ConnectFailed (detail : string)
| Response (status : Z) (body : option StatusDocument).

(** What each endpoint answers while one call runs. *)
Abbreviation network := (endpoint -> http_result).

(** [await response.json()]. *)
Definition json (body : option StatusDocument) : result StatusDocument :=
  match body with
  | None => Raise ContentTypeError
  | Some data => Ok data
  end.

(** [int(data['result']['sync_info']['latest_block_height'])]. *)
Definition parse_height (data : StatusDocument) : result Z :=
  match latest_block_height data with
  | HeightMissing => Raise (KeyError "latest_block_height")
  | HeightInvalid => Raise ValueError
  | HeightValue h => Ok h
  end.

(** [node_status['result']['sync_info']['catching_up']]. *)
Definition read_catching_up (data : StatusDocument) : result bool :=
  match catching_up data with
  | None => Raise (KeyError "catching_up")
  | Some b => Ok b
  end.

(** The body of one [try] block of [get_network_height] (lines 29-33):
    [Some h] when it returns [h], [None] when it ends without returning. *)
Definition fetch_height (net : network) (e : endpoint) : M (option Z) :=
  emit (Requested e);;
  match net e with
  | ConnectFailed detail => raise (ClientConnectorError detail)
  | Response status body =>
      if (status =? 200)%Z then
        data ← lift (json body);
        h ← lift (parse_height data);
        mret (Some h)
      else mret None
  end.

Definition no_network_height : exn :=
  Exception "Failed to get network height from any RPC endpoint".

(** [self.get_network_height()] (lines 21-46). *)
Definition get_network_height (net : network) : M Z :=
  r1 ← try_except (fetch_height net RPC_ENDPOINT_1)
                  (fun _ => emit (LogWarning RPC_ENDPOINT_1);; mret None);
  match r1 with
  | Some h => mret h
  | None =>
      r2 ← try_except (fetch_height net RPC_ENDPOINT_2)
                      (fun _ => emit (LogWarning RPC_ENDPOINT_2);; mret None);
      match r2 with
      | Some h => mret h
      | None => raise no_network_height
      end
  end.

(** [self.get_node_status()] (lines 48-60). *)
Definition get_node_status (net : network) : M StatusDocument :=
  emit (Requested LOCAL_NODE);;
  match net LOCAL_NODE with
  | ConnectFailed detail => raise (ClientConnectorError detail)
  | Response status body =>
      if negb (status =? 200)%Z then
        raise (Exception ("Failed to get node status: HTTP " +:+ pretty status))
      else lift (json body)
  end.

(** The dictionary [calculate_sync_metrics] returns. *)
Record Metrics := {
  m_current_height : Z;
  m_network_height : Z;
  m_blocks_behind : Z;
  m_sync_percent : Q;
  m_sync_speed : Q;
  m_time_remaining : option string;
  m_catching_up : bool
}.

(** [self.calculate_sync_metrics(current_height, network_height,
    node_status)] (lines 62-117), called when the clock reads [now]. *)
Definition calculate_sync_metrics (now : datetime)
    (current_height network_height : Z) (node_status : StatusDocument)
    : M Metrics :=
  (* Calculate sync progress *)
  let blocks_behind := (network_height - current_height)%Z in
  '(sync_percent, blocks_behind) ←
    (if (0 <? blocks_behind)%Z then
       sync_percent ←
         (if (0 <? network_height)%Z then
            ratio ← lift (truediv (inject_Z current_height)
                                  (inject_Z network_height));
            mret (ratio * 100)
          else mret 0);
       mret (Qmin 99.99 (round2 sync_percent), blocks_behind)
     else mret (100, 0%Z));
  (* Calculate sync speed *)
  this ← get_self;
  (if (0 <? last_height this)%Z then
     match last_check_time this with
     | Some last =>
         let time_diff := total_seconds (now - last) in
         if Qltb 0 time_diff then
           let height_diff := (current_height - last_height this)%Z in
           speed ← lift (truediv (inject_Z height_diff) time_diff);
           set_sync_speed speed
         else mret tt
     | None => mret tt
     end
   else mret tt);;
  (* Update last values *)
  set_last_height current_height;;
  set_last_check_time now;;
  (* Calculate estimated time remaining *)
  this ← get_self;
  time_remaining ←
    (if Qltb 0 (sync_speed this) && (0 <? blocks_behind)%Z then
       seconds_remaining ←
         lift (truediv (inject_Z blocks_behind) (sync_speed this));
       text ← lift (timedelta_str (Qtrunc seconds_remaining));
       mret (Some text)
     else mret None);
  cu ← lift (read_catching_up node_status);
  mret {| m_current_height := current_height;
          m_network_height := network_height;
          m_blocks_behind := blocks_behind;
          m_sync_percent := sync_percent;
          m_sync_speed := sync_speed this;
          m_time_remaining := time_remaining;
          m_catching_up := cu |}.

(** [self.get_sync_status()] (lines 119-147); the [except] clause logs and
    raises again. *)
Definition get_sync_status (now : datetime) (net : network) : M (Metrics * bool) :=
  try_except
    (network_height ← get_network_height net;
     node_status ← get_node_status net;
     current_height ← lift (parse_height node_status);
     metrics ← calculate_sync_metrics now current_height network_height
                                      node_status;
     let is_healthy :=
       (m_blocks_behind metrics <? 100)%Z && negb (m_catching_up metrics) in
     mret (metrics, is_healthy))
    (fun e => emit LogError;; raise e).

(** ** The three computations of [calculate_sync_metrics], in closed form

    [calculate_sync_metrics_run] shows that the method computes exactly
    these. *)

(** Lines 82-90: [(sync_percent, blocks_behind)]. *)
Definition sync_progress (current_height network_height : Z) : Q * Z :=
  if (0 <? network_height - current_height)%Z then
    (Qmin 99.99
          (round2 (if (0 <? network_height)%Z
                   then inject_Z current_height / inject_Z network_height * 100
                   else 0)),
     (network_height - current_height)%Z)
  else (100, 0%Z).

(** Lines 93-97: [self.sync_speed] after the update. *)
Definition updated_sync_speed (this : SyncMonitor) (now : datetime)
    (current_height : Z) : Q :=
  if (0 <? last_height this)%Z then
    match last_check_time this with
    | Some last =>
        if Qltb 0 (total_seconds (now - last)) then
          inject_Z (current_height - last_height this)
          / total_seconds (now - last)
        else sync_speed this
    | None => sync_speed this
    end
  else sync_speed this.

(** Lines 104-107: [time_remaining]. *)
Definition estimate_time_remaining (speed : Q) (blocks_behind : Z)
    : result (option string) :=
  if Qltb 0 speed && (0 <? blocks_behind)%Z then
    match timedelta_str (Qtrunc (inject_Z blocks_behind / speed)) with
    | Ok text => Ok (Some text)
    | Raise e => Raise e
    end
  else Ok None.

(** [timedelta] accepts the estimate, when there is one to compute. *)
Definition estimate_fits (speed : Q) (blocks_behind : Z) : Prop :=
  0 < speed ->
  (0 < blocks_behind)%Z ->
  (Z.abs (Qtrunc (inject_Z blocks_behind / speed) / 86400) <= 999999999)%Z.

(** ** Reading the outcome of a GET and the trace *)

(** The endpoint answers with height [h]: status 200 and a body whose
    [latest_block_height] reads [h]. *)
Definition answers (r : http_result) (h : Z) : Prop :=
  exists data,
    r = Response 200 (Some data) /\ latest_block_height data = HeightValue h.

(** The endpoint fails: it is unreachable, its status is not 200, or its
    body is malformed. *)
Inductive fails : http_result -> Prop :=
| fails_unreachable detail : fails (ConnectFailed detail)
| fails_status status body : status <> 200%Z -> fails (Response status body)
| fails_not_json status : fails (Response status None)
| fails_no_height status data :
    latest_block_height data = HeightMissing ->
    fails (Response status (Some data))
| fails_bad_height status data :
    latest_block_height data = HeightInvalid ->
    fails (Response status (Some data)).

(** The height an endpoint yields, if any. *)
Definition endpoint_height (r : http_result) : option Z :=
  match r with
  | Response status (Some data) =>
      if (status =? 200)%Z then
        match latest_block_height data with
        | HeightValue h => Some h
        | _ => None
        end
      else None
  | _ => None
  end.

(** The endpoints a trace shows as requested, in order. *)
Definition requests (tr : list event) : list endpoint :=
  omap (fun ev => match ev with Requested e => Some e | _ => None end) tr.

(** A world in which endpoint 1 answers with status 500, endpoint 2
    reports height 7, and the local node refuses connections. *)
Definition degraded_network : network :=
  fun e =>
    match e with
    | RPC_ENDPOINT_1 => Response 500 None
    | RPC_ENDPOINT_2 =>
        Response 200 (Some {| latest_block_height := HeightValue 7;
                              catching_up := Some false |})
    | LOCAL_NODE => ConnectFailed "Connection refused"
    end.

(** The state after the [except] clause of [get_sync_status]. *)
Definition log_error (st : State) : State :=
  {| self := self st; trace := trace st ++ [LogError] |}.

(** A state around a given monitor, with an empty trace. *)
Definition state_of (monitor : SyncMonitor) : State :=
  {| self := monitor; trace := [] |}.

(** The claim on a network height of zero, as the specification words it. *)
Definition zero_network_height_claim : Prop :=
  forall st now current_height node_status metrics,
    snd (calculate_sync_metrics now current_height 0 node_status st)
    = Ok metrics ->
    m_sync_percent metrics == 0.


(** A status document of a node at height [h] that is not catching up. *)
Definition status_at (h : Z) : StatusDocument :=
  {| latest_block_height := HeightValue h; catching_up := Some false |}.

(** A world in which the reference endpoints report [network_height] and
    the local node is at [current_height]. *)
Definition healthy_network (current_height network_height : Z) : network :=
  fun e =>
    match e with
    | LOCAL_NODE => Response 200 (Some (status_at current_height))
    | _ => Response 200 (Some (status_at network_height))
    end.

End SyncService.

(** * services/monitoring_service.py *)

Module MonitoringService.

Import SyncService.

(** The values a [chat_data] dictionary holds. *)
Inductive pyval :=
| PyNone
| PyBool (b : bool)
| PyInt (n : Z)
| PyStr (s : string).

(** Truth value of a Python object. *)
Definition truthy (v : pyval) : bool :=
  match v with
  | PyNone => false
  | PyBool b => b
  | PyInt n => negb (n =? 0)%Z
  | PyStr s => negb (String.eqb s EmptyString)
  end.

Abbreviation ChatData := (gmap string pyval).

(** [chat_data.get('monitoring', False)], used as a condition. *)
Definition monitoring_active (chat_data : ChatData) : bool :=
  truthy (default (PyBool false) (chat_data !! "monitoring")).

(** A job of the job queue.  Every job of this program runs
    [send_monitoring_update]. *)
Record Job := {
  job_id : nat;
  job_name : string;
  job_chat_id : Z;
  job_interval : Z;      (* seconds between two runs *)
  job_first : Z          (* seconds before the first run *)
}.

(** The job queue: the scheduled jobs, oldest first, and the identity the
    next job gets. *)
Record JobQueue := {
  next_job_id : nat;
  jobs : list Job
}.

Definition JobQueue_new : JobQueue := {| next_job_id := 0; jobs := [] |}.

(** [job_queue.run_repeating(callback, interval=, first=, chat_id=, name=)]. *)
Definition run_repeating (q : JobQueue) (interval first chat_id : Z)
    (name : string) : JobQueue :=
  {| next_job_id := S (next_job_id q);
     jobs := jobs q ++ [ {| job_id := next_job_id q; job_name := name;
                            job_chat_id := chat_id; job_interval := interval;
                            job_first := first |} ] |}.

(** [job_queue.get_jobs_by_name(name)]. *)
Definition get_jobs_by_name (q : JobQueue) (name : string) : list Job :=
  filter (fun j => job_name j = name) (jobs q).

(** [job.schedule_removal()]: the job leaves the queue. *)
Definition schedule_removal (job : Job) (q : JobQueue) : JobQueue :=
  {| next_job_id := next_job_id q;
     jobs := filter (fun j => job_id j <> job_id job) (jobs q) |}.

(** [f"monitor_{chat_id}"]. *)
Definition monitor_name (chat_id : Z) : string := "monitor_" +:+ pretty chat_id.

(** The delay before the first run of a monitoring job. *)
Definition first_delay : Z := 10.

(** [MonitoringService.activate_monitoring(chat_data, job_queue, chat_id,
    interval)]: the dictionary and the queue after the call, and the value
    returned. *)
Definition activate_monitoring (chat_data : ChatData) (job_queue : JobQueue)
    (chat_id interval : Z) : ChatData * JobQueue * bool :=
  if monitoring_active chat_data then (chat_data, job_queue, false)
  else
    let chat_data := <["monitoring" := PyBool true]> chat_data in
    let job_queue :=
      run_repeating job_queue interval first_delay chat_id (monitor_name chat_id) in
    (chat_data, job_queue, true).

(** [MonitoringService.deactivate_monitoring(chat_data, job_queue, chat_id)]. *)
Definition deactivate_monitoring (chat_data : ChatData) (job_queue : JobQueue)
    (chat_id : Z) : ChatData * JobQueue * bool :=
  if negb (monitoring_active chat_data) then (chat_data, job_queue, false)
  else
    let chat_data := <["monitoring" := PyBool false]> chat_data in
    let current_jobs := get_jobs_by_name job_queue (monitor_name chat_id) in
    let job_queue :=
      foldl (fun q job => schedule_removal job q) job_queue current_jobs in
    (chat_data, job_queue, true).

(** Job identities are pairwise distinct and older than [next_job_id]. *)
Definition wf_queue (q : JobQueue) : Prop :=
  NoDup (job_id <$> jobs q) /\ Forall (fun j => job_id j < next_job_id q) (jobs q).

(** The synchronisation part of a monitoring update.  The disk and service
    lines that precede it come from [system_service]; they, and the
    splitting of a text longer than 4096 characters into several messages,
    are left out: a report stands for the text sent. *)
Inductive report :=
| SyncReport (metrics : Metrics) (is_healthy : bool)
| NodeConnectionError (detail : string)       (* [except ClientConnectorError] *)
| ErrorCheckingNodeStatus (e : exn).          (* [except Exception] *)

(** Lines 68-107 of [send_monitoring_update]:
    [[
        sync_monitor = SyncMonitor()
        sync_metrics, is_healthy = await sync_monitor.get_sync_status()
    ]]
    and the two [except] clauses. *)
Definition sync_section (now : datetime) (net : network) : report :=
  let sync_monitor := SyncMonitor_new in
  match snd (get_sync_status now net (state_of sync_monitor)) with
  | Ok (sync_metrics, is_healthy) => SyncReport sync_metrics is_healthy
  | Raise (ClientConnectorError detail) => NodeConnectionError detail
  | Raise e => ErrorCheckingNodeStatus e
  end.

(** The running bot: the per-chat dictionaries, the job queue, the chats
    whose monitoring update is suspended at
    [await sync_monitor.get_sync_status()], and the messages sent so far,
    oldest first. *)
Record Bot := {
  bot_chat_data : gmap Z ChatData;
  bot_job_queue : JobQueue;
  bot_in_flight : list Z;
  bot_outbox : list (Z * report)
}.

Definition Bot_new : Bot :=
  {| bot_chat_data := ∅; bot_job_queue := JobQueue_new;
     bot_in_flight := []; bot_outbox := [] |}.

(** [context.chat_data] of a chat: an empty dictionary until written. *)
Definition chat_data_of (b : Bot) (chat_id : Z) : ChatData :=
  default ∅ (bot_chat_data b !! chat_id).

(** The handler [activate_monitoring] of [bot/handlers/monitoring.py]. *)
Definition handle_activate (b : Bot) (chat_id interval : Z) : Bot :=
  let '(chat_data, job_queue, _) :=
    activate_monitoring (chat_data_of b chat_id) (bot_job_queue b)
                        chat_id interval in
  {| bot_chat_data := <[chat_id := chat_data]> (bot_chat_data b);
     bot_job_queue := job_queue;
     bot_in_flight := bot_in_flight b;
     bot_outbox := bot_outbox b |}.

(** The handler [deactivate_monitoring]. *)
Definition handle_deactivate (b : Bot) (chat_id : Z) : Bot :=
  let '(chat_data, job_queue, _) :=
    deactivate_monitoring (chat_data_of b chat_id) (bot_job_queue b) chat_id in
  {| bot_chat_data := <[chat_id := chat_data]> (bot_chat_data b);
     bot_job_queue := job_queue;
     bot_in_flight := bot_in_flight b;
     bot_outbox := bot_outbox b |}.

(** [send_monitoring_update] from its start to its first [await]: the check
    of the chat's flag (lines 21-23), after which the update is suspended
    on the network. *)
Definition send_monitoring_update_begin (b : Bot) (chat_id : Z) : Bot :=
  if negb (monitoring_active (chat_data_of b chat_id)) then b
  else
    {| bot_chat_data := bot_chat_data b;
       bot_job_queue := bot_job_queue b;
       bot_in_flight := bot_in_flight b ++ [chat_id];
       bot_outbox := bot_outbox b |}.

(** Drop the first occurrence of [x]. *)
Fixpoint remove_first (x : Z) (l : list Z) : list Z :=
  match l with
  | [] => []
  | y :: t => if (x =? y)%Z then t else y :: remove_first x t
  end.

(** [send_monitoring_update] from that [await] to its end: the answers of
    the endpoints arrive and the message is sent.  Nothing happens when no
    update of the chat is suspended. *)
Definition send_monitoring_update_resume (b : Bot) (chat_id : Z)
    (now : datetime) (net : network) : Bot :=
  if decide (chat_id ∈ bot_in_flight b) then
    {| bot_chat_data := bot_chat_data b;
       bot_job_queue := bot_job_queue b;
       bot_in_flight := remove_first chat_id (bot_in_flight b);
       bot_outbox := bot_outbox b ++ [(chat_id, sync_section now net)] |}
  else b.

(** What the event loop can run next.  A fire may already be pending when
    its job is removed, so [FireBegin] is possible whether or not the job
    is still scheduled. *)
Inductive action :=
| Activate (chat_id interval : Z)
| Deactivate (chat_id : Z)
| FireBegin (chat_id : Z)
| FireResume (chat_id : Z) (now : datetime) (net : network).

Definition step (b : Bot) (a : action) : Bot :=
  match a with
  | Activate chat_id interval => handle_activate b chat_id interval
  | Deactivate chat_id => handle_deactivate b chat_id
  | FireBegin chat_id => send_monitoring_update_begin b chat_id
  | FireResume chat_id now net => send_monitoring_update_resume b chat_id now net
  end.

Definition run (b : Bot) (acts : list action) : Bot := foldl step b acts.

(** The reports sent to a chat, oldest first. *)
Definition delivered (b : Bot) (chat_id : Z) : list report :=
  snd <$> filter (fun m => fst m = chat_id) (bot_outbox b).

Definition activates (chat_id : Z) (a : action) : Prop :=
  match a with
  | Activate c _ => c = chat_id
  | _ => False
  end.

(** What holds of every bot the event loop can reach: job identities are
    in order, and a chat has one job under its name when its flag is set
    and none otherwise. *)
Definition bot_inv (b : Bot) : Prop :=
  wf_queue (bot_job_queue b) /\
  forall chat_id,
    length (get_jobs_by_name (bot_job_queue b) (monitor_name chat_id))
    = if monitoring_active (chat_data_of b chat_id) then 1 else 0.

(** A chat whose flag is down and that has no update in flight. *)
Definition quiet (chat_id : Z) (b : Bot) : Prop :=
  monitoring_active (chat_data_of b chat_id) = false /\
  (chat_id ∉ bot_in_flight b).

(** A message that, if it reports the synchronisation, reports no speed
    and no estimate. *)
Definition no_speed (m : Z * report) : Prop :=
  forall metrics is_healthy,
    snd m = SyncReport metrics is_healthy ->
    m_sync_speed metrics = 0%Q /\ m_time_remaining metrics = None.



(** Two polls of chat 1, at heights 1000 and 1100, 50 seconds apart. *)
Definition two_polls : list action :=
  [Activate 1 300;
   FireBegin 1;
   FireResume 1 0 (healthy_network 1000 2000);
   FireBegin 1;
   FireResume 1 50000000 (healthy_network 1100 2000)].

(** What the second of them reports. *)
Definition second_poll_metrics : Metrics :=
  {| m_current_height := 1100;
     m_network_height := 2000;
     m_blocks_behind := 900;
     m_sync_percent := (5500 # 100)%Q;
     m_sync_speed := 0%Q;
     m_time_remaining := None;
     m_catching_up := false |}.

(** A queue holding two jobs of chat 7 and one of chat 8. *)
Definition crowded_queue : JobQueue :=
  {| next_job_id := 3;
     jobs := [ {| job_id := 0; job_name := monitor_name 7; job_chat_id := 7;
                  job_interval := 300; job_first := 10 |};
               {| job_id := 1; job_name := monitor_name 8; job_chat_id := 8;
                  job_interval := 300; job_first := 10 |};
               {| job_id := 2; job_name := monitor_name 7; job_chat_id := 7;
                  job_interval := 60; job_first := 10 |} ] |}.

End MonitoringService.

(** * utils/helpers.py, continued *)

Module MoreHelpers.

Import Helpers.

(** Every [max_length - 1] consecutive characters of [message] hold a
    newline: no line, and no stretch between two newlines, is longer than
    [max_length - 2]. *)
Definition dense_newlines (max_length : nat) (message : str) : bool :=
  forallb (fun k =>
             if k + (max_length - 1) <=? length message
             then bool_decide (newline ∈ take (max_length - 1) (drop k message))
             else true)
          (seq 0 (S (length message))).

(** The values of parsed JSON. *)
#[warnings="-register-all"]
Inductive pyobj :=
| PNone
| PBool (b : bool)
| PInt (n : Z)
| PStr (s : string)
| PList (l : list pyobj)
| PDict (d : gmap string pyobj).

(** The two exceptions [safe_get] catches. *)
Inductive subscript_error := KeyError | TypeError.

(** [data[key]] for a key that is a string: a dictionary is looked up, and
    nothing else can be subscripted by a string. *)
Definition getitem (data : pyobj) (key : string) : pyobj + subscript_error :=
  match data with
  | PDict d =>
      match d !! key with
      | Some v => inl v
      | None => inr KeyError
      end
  | _ => inr TypeError
  end.

(** [safe_get(data, *keys, default=default)] (lines 6-23). *)
Fixpoint safe_get (data : pyobj) (keys : list string) (default : pyobj) : pyobj :=
  match keys with
  | [] => data
  | key :: keys =>
      match getitem data key with
      | inl data => safe_get data keys default
      | inr _ => default
      end
  end.

(** The default of [default]. *)
Definition not_available : pyobj := PStr "Not available".

(** A status document with a null [catching_up]. *)
Definition sample_status : pyobj :=
  PDict {[ "result" :=
             PDict {[ "sync_info" :=
                        PDict {[ "latest_block_height" := PStr "1100";
                                 "catching_up" := PNone ]} ]} ]}.

End MoreHelpers.

(** * services/monitoring_service.py, continued *)

Module MonitoringMore.

Import Helpers SyncService MonitoringService.

(** The dictionary [get_monitoring_status] returns. *)
Record MonitoringStatus := {
  st_active : pyval;
  st_interval_minutes : Z;
  st_status : string
}.

(** [MonitoringService.get_monitoring_status(chat_data, interval)]
    (lines 142-150). *)
Definition get_monitoring_status (chat_data : ChatData) (interval : Z)
    : MonitoringStatus :=
  let monitoring_active := default (PyBool false) (chat_data !! "monitoring") in
  {| st_active := monitoring_active;
     st_interval_minutes := (interval / 60)%Z;
     st_status := if truthy monitoring_active then "✅ Yes" else "❌ No" |}.

(** The longest text Telegram takes in one message, as the code has it. *)
Definition telegram_limit : nat := 4096.

(** The end of [send_monitoring_update] (lines 109-126): the texts handed
    to [send_message], in order; [None] when [split_message] does not
    return, in which case nothing is sent.
    [[
        if len(message) <= 4096:
            await context.bot.send_message(chat_id=chat_id, text=message, ...)
        else:
            messages = split_message(message)
            for msg in messages:
                await context.bot.send_message(chat_id=chat_id, text=msg, ...)
    ]] *)
Definition send_update (message : str) : option (list str) :=
  if length message <=? telegram_limit then Some [message]
  else split_message message default_max_length.

(** In every dictionary of a chat, [monitoring] is absent or a boolean. *)
Definition flags_are_bool (b : Bot) : Prop :=
  forall chat_id,
    exists flag : bool,
      default (PyBool false) (chat_data_of b chat_id !! "monitoring")
      = PyBool flag.

(** A text of 4050 characters on one line. *)
Definition line_of_4050 : str := repeat "a"%char 4050.

End MonitoringMore.

(** * services/node_service.py *)

Module NodeService.

Import SyncService.

(** What the texts of this module are built from and the code does not
    fix: the URL of each endpoint ([RPC_ENDPOINT_1], [RPC_ENDPOINT_2] and
    [http://localhost:{SERVER_PORT}/status], from [utils/config.py]) and
    the text [str(e)] of an exception raised by a library. *)
Record Texts := {
  url : endpoint -> string;
  library_text : exn -> string
}.

(** A line break. *)
Definition nl : string := String "010"%char EmptyString.

Section WithTexts.

Variable cfg : Texts.

(** [str(e)]. *)
Definition str_exn (e : exn) : string :=
  match e with
  | Exception msg => msg
  | ClientConnectorError detail => detail
  | _ => library_text cfg e
  end.

(** [format_connection_error(error, endpoint)] (lines 12-36). *)
Definition format_connection_error (error : exn) (endpoint : string) : string :=
  match error with
  | ClientConnectorError _ =>
      "🚫 Cannot connect to node at " +:+ endpoint +:+ nl +:+ nl
      +:+ "Possible reasons:" +:+ nl
      +:+ "• The node service is not running" +:+ nl
      +:+ "• The node's API port is not accessible" +:+ nl
      +:+ "• The node is experiencing issues" +:+ nl +:+ nl
      +:+ "Suggested actions:" +:+ nl
      +:+ "1. Check if the node service is running" +:+ nl
      +:+ "2. Verify the API port (26657) is accessible" +:+ nl
      +:+ "3. Check node logs for potential issues" +:+ nl
      +:+ nl +:+ "Technical details: " +:+ str_exn error
  | _ => str_exn error
  end.

(** [fetch_latest_block(rpc_endpoint)] (lines 38-67). *)
Definition fetch_latest_block (net : network) (rpc_endpoint : endpoint) : M Z :=
  try_except
    (emit (Requested rpc_endpoint);;
     match net rpc_endpoint with
     | ConnectFailed detail => raise (ClientConnectorError detail)
     | Response status body =>
         if (status =? 200)%Z then
           data ← lift (json body);
           lift (parse_height data)
         else
           raise (Exception
                    ("🚫 API request failed (Status " +:+ pretty status
                     +:+ ")" +:+ nl +:+ nl
                     +:+ "The node's API responded with an error." +:+ nl
                     +:+ "Please check if the node is functioning correctly."))
     end)
    (fun e =>
       match e with
       | ClientConnectorError _ =>
           raise (Exception (format_connection_error e (url cfg rpc_endpoint)))
       | _ => raise (Exception ("🚫 Error fetching data: " +:+ str_exn e))
       end).

(** [fetch_node_status()] (lines 69-94). *)
Definition fetch_node_status (net : network) : M StatusDocument :=
  try_except
    (emit (Requested LOCAL_NODE);;
     match net LOCAL_NODE with
     | ConnectFailed detail => raise (ClientConnectorError detail)
     | Response status body =>
         if (status =? 200)%Z then lift (json body)
         else
           raise (Exception
                    ("🚫 Node API request failed (Status " +:+ pretty status
                     +:+ ")" +:+ nl +:+ nl
                     +:+ "The local node's API responded with an error." +:+ nl
                     +:+ "Please check if the node is functioning correctly."))
     end)
    (fun e =>
       match e with
       | ClientConnectorError _ =>
           raise (Exception (format_connection_error e (url cfg LOCAL_NODE)))
       | _ => raise (Exception ("🚫 Error fetching node status: " +:+ str_exn e))
       end).

(** The text for a node that is behind. *)
Definition alert_text (node_block_height latest_block_rpc1 : Z) : string :=
  let difference := (latest_block_rpc1 - node_block_height)%Z in
  "🚨 **Block Synchronization Alert:**" +:+ nl +:+ nl
  +:+ "Your node is behind by " +:+ pretty difference +:+ " blocks." +:+ nl
  +:+ "Node Block Height: " +:+ pretty node_block_height +:+ nl
  +:+ "Network Latest Block: " +:+ pretty latest_block_rpc1 +:+ nl +:+ nl
  +:+ "📝 Please check your node to ensure it's operating correctly.".

(** The text for a node that is not behind. *)
Definition synced_text (node_block_height latest_block_rpc1 : Z) : string :=
  "✅ **Block Synchronization Status:**" +:+ nl +:+ nl
  +:+ "Your node is fully synchronized." +:+ nl
  +:+ "Node Block Height: " +:+ pretty node_block_height +:+ nl
  +:+ "Network Latest Block: " +:+ pretty latest_block_rpc1.

(** The text when neither reference endpoint gave a height. *)
Definition network_error_text (e e2 : exn) : string :=
  "🚫 Network Connection Error" +:+ nl +:+ nl
  +:+ "Cannot connect to any RPC endpoints." +:+ nl
  +:+ "Please check your internet connection and try again." +:+ nl +:+ nl
  +:+ "Technical details:" +:+ nl
  +:+ "RPC1 Error: " +:+ str_exn e +:+ nl
  +:+ "RPC2 Error: " +:+ str_exn e2.

(** The text when the local node gave no height. *)
Definition local_error_text (e : exn) : string :=
  "🚫 Local Node Error" +:+ nl +:+ nl
  +:+ "Cannot fetch local node status." +:+ nl
  +:+ "Please check if your node is running and accessible." +:+ nl +:+ nl
  +:+ "Technical details: " +:+ str_exn e.

(** [compare_block_heights()] (lines 96-158).  Of the log records only the
    errors are traced. *)
Definition compare_block_heights (net : network) : M (string * bool) :=
  try_except
    (latest_block_rpc1 ←
       try_except
         (fetch_latest_block net RPC_ENDPOINT_1)
         (fun e =>
            emit LogError;;
            try_except
              (fetch_latest_block net RPC_ENDPOINT_2)
              (fun e2 => raise (Exception (network_error_text e e2))));
     node_block_height ←
       try_except
         (node_status ← fetch_node_status net;
          lift (parse_height node_status))
         (fun e => raise (Exception (local_error_text e)));
     if (node_block_height <? latest_block_rpc1)%Z then
       mret (alert_text node_block_height latest_block_rpc1, false)
     else
       mret (synced_text node_block_height latest_block_rpc1, true))
    (fun e => emit LogError;; mret (str_exn e, false)).

End WithTexts.

(** The height the reference endpoints give: that of the first, or else
    that of the second. *)
Definition network_height_of (net : network) : option Z :=
  match endpoint_height (net RPC_ENDPOINT_1) with
  | Some h => Some h
  | None => endpoint_height (net RPC_ENDPOINT_2)
  end.

(** Texts for the examples. *)
Definition sample_texts : Texts :=
  {| url := fun e =>
              match e with
              | RPC_ENDPOINT_1 => "https://rpc1.example/status"
              | RPC_ENDPOINT_2 => "https://rpc2.example/status"
              | LOCAL_NODE => "http://localhost:26657/status"
              end;
     library_text := fun _ => "error" |}.

(** What a first poll reports of a node at 1000 under a network at 2000. *)
Definition behind_metrics : Metrics :=
  {| m_current_height := 1000;
     m_network_height := 2000;
     m_blocks_behind := 1000;
     m_sync_percent := (5000 # 100)%Q;
     m_sync_speed := 0%Q;
     m_time_remaining := None;
     m_catching_up := false |}.

End NodeService.

(** * services/node_service.py: [fetch_validator_info] *)

Module ValidatorInfo.

Import MoreHelpers.

(** An exception as [fetch_validator_info] tells exceptions apart: whether
    it is a [ClientConnectorError], and its text [str(e)]. *)
Inductive raised :=
| ConnectorError (detail : string)
| OtherError (text : string).

(** What one GET yields: no connection, or a response with its status code
    and its body as [resp.json()] parses it ([None]: it does not parse). *)
Inductive response :=
| NoConnection (detail : string)
| Answer (status : Z) (body : option pyobj).

(** The two URLs. *)
Inductive target := StatusUrl | ValidatorsUrl.

(** What the texts are built from and the code does not fix. *)
Record Texts := {
  url : target -> string;               (* from [SERVER_PORT] *)
  json_error_text : string;             (* [str(e)] when [resp.json()] raises *)
  type_error_text : pyobj -> string     (* [str(e)] of the [TypeError] of a subscript *)
}.

(** The dictionary returned. *)
Record Info := {
  node_info : pyobj;
  sync_info : pyobj;
  validator_info : pyobj;
  validators : pyobj
}.

Definition str_raised (e : raised) : string :=
  match e with
  | ConnectorError detail => detail
  | OtherError text => text
  end.

(** [format_connection_error(e, endpoint)] for a [ClientConnectorError]. *)
Definition connection_text (detail endpoint : string) : string :=
  NodeService.format_connection_error
    {| NodeService.url := fun _ => endpoint;
       NodeService.library_text := fun _ => detail |}
    (SyncService.ClientConnectorError detail) endpoint.

Section WithTexts.

Variable cfg : Texts.

(** [data[key]]; the text of a [KeyError] is the key between quotes. *)
Definition subscript (data : pyobj) (key : string) : pyobj + raised :=
  match getitem data key with
  | inl v => inl v
  | inr KeyError => inr (OtherError ("'" +:+ key +:+ "'"))
  | inr TypeError => inr (OtherError (type_error_text cfg data))
  end.

(** One of the two inner [try] blocks: the request, [resp.json()], and the
    [except ClientConnectorError] clause. *)
Definition get_json (t : target) (r : response) : pyobj + raised :=
  match r with
  | NoConnection detail => inr (OtherError (connection_text detail (url cfg t)))
  | Answer _ body =>
      match body with
      | Some data => inl data
      | None => inr (OtherError (json_error_text cfg))
      end
  end.

(** The [return] statement (lines 187-192). *)
Definition build_info (status validators : pyobj) : Info + raised :=
  match subscript status "result" with
  | inr e => inr e
  | inl result =>
      match subscript result "node_info" with
      | inr e => inr e
      | inl ni =>
          match subscript result "sync_info" with
          | inr e => inr e
          | inl si =>
              match subscript result "validator_info" with
              | inr e => inr e
              | inl vi =>
                  match subscript validators "result" with
                  | inr e => inr e
                  | inl vs =>
                      inl {| node_info := ni; sync_info := si;
                             validator_info := vi; validators := vs |}
                  end
              end
          end
      end
  end.

(** The text of the outer [except] clause. *)
Definition validator_error_text (e : raised) : string :=
  "🚫 Validator Info Error" +:+ NodeService.nl +:+ NodeService.nl
  +:+ "Failed to fetch validator information." +:+ NodeService.nl
  +:+ "Please check if your node is running and accessible."
  +:+ NodeService.nl +:+ NodeService.nl
  +:+ "Technical details: " +:+ str_raised e.

(** The outer [except Exception as e] clause: an exception that is not a
    [ClientConnectorError] is raised again in other words; after a
    [ClientConnectorError] the function ends without a [return], which
    returns [None]. *)
Definition outer_except {A} (r : A + raised) : option A + raised :=
  match r with
  | inl a => inl (Some a)
  | inr (ConnectorError _) => inl None
  | inr e => inr (OtherError (validator_error_text e))
  end.

(** [fetch_validator_info()] (lines 160-200), given what the two URLs
    answer: the URLs requested, in order, and the outcome. *)
Definition fetch_validator_info (answer : target -> response)
    : list target * (option Info + raised) :=
  match get_json StatusUrl (answer StatusUrl) with
  | inr e => ([StatusUrl], outer_except (inr e))
  | inl status =>
      match get_json ValidatorsUrl (answer ValidatorsUrl) with
      | inr e => ([StatusUrl; ValidatorsUrl], outer_except (inr e))
      | inl validators =>
          ([StatusUrl; ValidatorsUrl],
           outer_except (build_info status validators))
      end
  end.

End WithTexts.

(** Texts and answers for the examples. *)
Definition sample_texts : Texts :=
  {| url := fun t =>
              match t with
              | StatusUrl => "http://localhost:26657/status"
              | ValidatorsUrl => "http://localhost:26657/validators"
              end;
     json_error_text := "Expecting value";
     type_error_text := fun _ => "object is not subscriptable" |}.

Definition sample_answers : target -> response :=
  fun t =>
    match t with
    | StatusUrl =>
        Answer 200
          (Some (PDict {[ "result" :=
                            PDict {[ "node_info" := PStr "n";
                                     "sync_info" := PStr "s";
                                     "validator_info" := PStr "v" ]} ]}))
    | ValidatorsUrl =>
        Answer 200 (Some (PDict {[ "result" := PList [] ]}))
    end.

Definition sample_info : Info :=
  {| node_info := PStr "n"; sync_info := PStr "s";
     validator_info := PStr "v"; validators := PList [] |}.

End ValidatorInfo.

(** * bot/keyboards/menus.py *)

Module Menus.

Record InlineKeyboardButton := {
  text : string;
  callback_data : string
}.

(** The rows of an inline keyboard. *)
Definition InlineKeyboardMarkup := list (list InlineKeyboardButton).

Definition Button (text callback_data : string) : InlineKeyboardButton :=
  {| text := text; callback_data := callback_data |}.

Definition get_main_menu : InlineKeyboardMarkup :=
  [ [Button "📊 Status" "status"];
    [Button "📜 Logs" "logs"; Button "🔄 Restart Services" "restart"];
    [Button "💻 System Info" "system_info"; Button "📝 Monitor" "monitor"];
    [Button "📈 Performance" "performance"; Button "🌐 Network" "network"];
    [Button "✅ Validator" "validator"; Button "❔ Help" "help"] ].

Definition get_log_options : InlineKeyboardMarkup :=
  [ [Button "Story Logs" "logs_story";
     Button "Story-Geth Logs" "logs_story-geth"];
    [Button "⬅️ Back to Main Menu" "start"] ].

Definition get_restart_options : InlineKeyboardMarkup :=
  [ [Button "Restart Story" "restart_story";
     Button "Restart Story-Geth" "restart_story-geth"];
    [Button "⬅️ Back to Main Menu" "start"] ].

Definition get_monitor_menu : InlineKeyboardMarkup :=
  [ [Button "✅ Activate Monitoring" "monitor_activate"];
    [Button "❌ Deactivate Monitoring" "monitor_deactivate"];
    [Button "📋 View Monitoring Status" "monitor_status"];
    [Button "⬅️ Back to Main Menu" "start"] ].

Definition get_back_to_main_menu : InlineKeyboardMarkup :=
  [ [Button "⬅️ Back to Main Menu" "start"] ].

Definition get_back_to_monitor_menu : InlineKeyboardMarkup :=
  [ [Button "⬅️ Back to Monitor Menu" "monitor"];
    [Button "⬅️ Back to Main Menu" "start"] ].

Definition get_log_filter_options (service : string) : InlineKeyboardMarkup :=
  [ [Button "All Levels" ("log_filter_" +:+ service +:+ "_all")];
    [Button "ERROR" ("log_filter_" +:+ service +:+ "_ERROR")];
    [Button "WARNING" ("log_filter_" +:+ service +:+ "_WARNING")];
    [Button "INFO" ("log_filter_" +:+ service +:+ "_INFO")];
    [Button "⬅️ Back to Logs Menu" "logs"];
    [Button "⬅️ Back to Main Menu" "start"] ].

(** The keyboards that take no argument. *)
Definition fixed_menus : list InlineKeyboardMarkup :=
  [ get_main_menu; get_log_options; get_restart_options; get_monitor_menu;
    get_back_to_main_menu; get_back_to_monitor_menu ].

(** The callback data of a keyboard's buttons, row by row. *)
Definition data_of (keyboard : InlineKeyboardMarkup) : list string :=
  callback_data <$> concat keyboard.

End Menus.

(** * bot/handlers/__init__.py, bot/decorators.py, bot/main.py and
      [handle_log_filter] of bot/handlers/logs.py *)

Module Dispatch.

(** The values of the dictionary [callback_handlers]: a handler, or one of
    the lambdas that call [handle_restart_service] or [view_logs] with a
    service name. *)
Inductive handler :=
| HandleStart
| HandleHelp
| HandleStatus
| SystemInfo
| PerformanceMetrics
| NetworkStats
| ValidatorInfoHandler
| ShowRestartOptions
| HandleRestartService (service_name : string)
| ShowMonitorMenu
| ActivateMonitoring
| DeactivateMonitoring
| ViewMonitoringStatus
| ShowLogOptions
| ViewLogs (service : string)
| HandleLogFilter.

(** The entries of [callback_handlers], in the order of the source. *)
Definition callback_entries : list (string * handler) :=
  [ ("start", HandleStart);
    ("help", HandleHelp);
    ("status", HandleStatus);
    ("system_info", SystemInfo);
    ("performance", PerformanceMetrics);
    ("network", NetworkStats);
    ("validator", ValidatorInfoHandler);
    ("restart", ShowRestartOptions);
    ("restart_story", HandleRestartService "story");
    ("restart_story-geth", HandleRestartService "story-geth");
    ("monitor", ShowMonitorMenu);
    ("monitor_activate", ActivateMonitoring);
    ("monitor_deactivate", DeactivateMonitoring);
    ("monitor_status", ViewMonitoringStatus);
    ("logs", ShowLogOptions);
    ("logs_story", ViewLogs "story");
    ("logs_story-geth", ViewLogs "story-geth");
    ("log_filter", HandleLogFilter) ].

Definition callback_handlers : gmap string handler :=
  list_to_map callback_entries.

Definition command_handlers : gmap string handler :=
  list_to_map [ ("start", HandleStart); ("help", HandleHelp) ].

(** [s.split(sep)] for a separator of one character: the pieces between
    the separators, empty ones included. *)
Fixpoint split (sep : ascii) (s : string) : list string :=
  match s with
  | EmptyString => [EmptyString]
  | String c rest =>
      if Ascii.eqb c sep then EmptyString :: split sep rest
      else
        match split sep rest with
        | piece :: pieces => String c piece :: pieces
        | [] => [String c EmptyString]
        end
  end.

(** The number of separators in [s]. *)
Fixpoint count (sep : ascii) (s : string) : nat :=
  match s with
  | EmptyString => 0
  | String c rest => (if Ascii.eqb c sep then 1 else 0) + count sep rest
  end.

Definition underscore : ascii := "_"%char.

(** The body of [handle_log_filter] (lines 135-141), from the callback
    data to the arguments it hands to [view_logs]; the unpacking of a list
    that does not hold three values raises [ValueError].
    [[
        _, service, level = query.data.split('_')[2:]
        if level == 'all':
            level = None
        await view_logs(update, context, service, level)
    ]] *)
Definition handle_log_filter (data : string)
    : string * option string + SyncService.exn :=
  match drop 2 (split underscore data) with
  | [_; service; level] =>
      inl (service, if String.eqb level "all" then None else Some level)
  | _ => inr SyncService.ValueError
  end.

(** What the handlers read of an update that carries a callback query. *)
Record Update := {
  effective_user_id : Z;
  effective_chat_id : Z;
  callback_query_data : string
}.

(** What becomes of a callback query: no entry of [callback_handlers], the
    refusal of [admin_only], or a handler's body. *)
Inductive outcome :=
| NoHandler
| NotAuthorized
| Called (h : handler).

Section WithConfig.

Variables ADMIN_ID MONITORING_INTERVAL : Z.

(** [admin_only(func)] (lines 12-42). *)
Definition admin_only
    (func : Update -> MonitoringService.Bot -> MonitoringService.Bot * outcome)
    (update : Update) (b : MonitoringService.Bot)
    : MonitoringService.Bot * outcome :=
  let user_id := effective_user_id update in
  if bool_decide (user_id <> ADMIN_ID) then (b, NotAuthorized)
  else func update b.

(** The body of a handler, as far as the chats' data and the job queue go:
    only the two monitoring handlers touch them. *)
Definition body (h : handler) (update : Update) (b : MonitoringService.Bot)
    : MonitoringService.Bot * outcome :=
  (match h with
   | ActivateMonitoring =>
       MonitoringService.handle_activate b (effective_chat_id update)
                                         MONITORING_INTERVAL
   | DeactivateMonitoring =>
       MonitoringService.handle_deactivate b (effective_chat_id update)
   | _ => b
   end,
   Called h).

(** The function given to [CallbackQueryHandler] (main.py, lines 50-55):
    [[
        lambda u, c: callback_handlers[u.callback_query.data](u, c)
        if u.callback_query.data in callback_handlers else None
    ]]
    Every handler of the dictionary is wrapped by [admin_only]. *)
Definition on_callback_query (update : Update) (b : MonitoringService.Bot)
    : MonitoringService.Bot * outcome :=
  match callback_handlers !! callback_query_data update with
  | Some h => admin_only (body h) update b
  | None => (b, NoHandler)
  end.

(** What the event loop runs: a callback query, or a step of a monitoring
    job. *)
Inductive event :=
| CallbackQuery (update : Update)
| JobBegin (chat_id : Z)
| JobResume (chat_id : Z) (now : SyncService.datetime)
            (net : SyncService.network).

Definition handle_event (b : MonitoringService.Bot) (ev : event)
    : MonitoringService.Bot :=
  match ev with
  | CallbackQuery update => fst (on_callback_query update b)
  | JobBegin chat_id => MonitoringService.send_monitoring_update_begin b chat_id
  | JobResume chat_id now net =>
      MonitoringService.send_monitoring_update_resume b chat_id now net
  end.

Definition run_events (b : MonitoringService.Bot) (evs : list event)
    : MonitoringService.Bot :=
  foldl handle_event b evs.

(** The administrator presses "Activate Monitoring" in a chat. *)
Definition admin_activates (chat_id : Z) (ev : event) : Prop :=
  match ev with
  | CallbackQuery update =>
      effective_user_id update = ADMIN_ID /\
      effective_chat_id update = chat_id /\
      callback_query_data update = "monitor_activate"
  | _ => False
  end.

(** The step of the monitoring service an event amounts to, if any. *)
Definition action_of (ev : event) : option MonitoringService.action :=
  match ev with
  | CallbackQuery update =>
      if bool_decide (effective_user_id update <> ADMIN_ID) then None
      else
        match callback_handlers !! callback_query_data update with
        | Some ActivateMonitoring =>
            Some (MonitoringService.Activate (effective_chat_id update)
                                             MONITORING_INTERVAL)
        | Some DeactivateMonitoring =>
            Some (MonitoringService.Deactivate (effective_chat_id update))
        | _ => None
        end
  | JobBegin chat_id => Some (MonitoringService.FireBegin chat_id)
  | JobResume chat_id now net =>
      Some (MonitoringService.FireResume chat_id now net)
  end.

End WithConfig.

(** A stranger and the administrator (user 1) at work in chat 7. *)
Definition sample_events : list event :=
  [ CallbackQuery {| effective_user_id := 2; effective_chat_id := 7;
                     callback_query_data := "monitor_activate" |};
    JobBegin 7;
    JobResume 7 0 (SyncService.healthy_network 1000 2000);
    CallbackQuery {| effective_user_id := 1; effective_chat_id := 8;
                     callback_query_data := "monitor_activate" |};
    JobBegin 8;
    JobResume 8 0 (SyncService.healthy_network 1000 2000) ].

End Dispatch.

(** * The sending part of [handle_status] (bot/handlers/status.py) *)

Module StatusHandler.

Import Helpers Menus.

Inductive method := EditMessageText | ReplyText | SendMessage.

(** One call to Telegram. *)
Record Sent := {
  via : method;
  sent_text : str;
  reply_markup : option InlineKeyboardMarkup
}.

(** Lines 72-144 of [handle_status]: the calls that send [message], in
    order; [None] when [split_message] does not return.
    [[
        reply_markup = get_back_to_main_menu()
        if len(message) <= 4096:
            ... edit_message_text / reply_text (message, reply_markup) ...
        else:
            messages = split_message(message)
            for idx, msg in enumerate(messages):
                if idx == 0:
                    ... edit_message_text / reply_text (msg,
                        reply_markup if idx == len(messages) - 1 else None)
                else:
                    ... send_message (msg,
                        reply_markup if idx == len(messages) - 1 else None)
    ]] *)
Definition send_status (from_callback : bool) (message : str)
    : option (list Sent) :=
  let markup := get_back_to_main_menu in
  let first := if from_callback then EditMessageText else ReplyText in
  if length message <=? 4096 then
    Some [ {| via := first; sent_text := message;
              reply_markup := Some markup |} ]
  else
    messages ← split_message message default_max_length;
    Some (imap (fun idx msg =>
                  {| via := if idx =? 0 then first else SendMessage;
                     sent_text := msg;
                     reply_markup := if idx =? length messages - 1
                                     then Some markup else None |})
               messages).

End StatusHandler.

(** * [format_size] (bot/handlers/system.py) *)

Module SystemHandler.

Import SyncService.

Local Open Scope Q_scope.

(** [f"{x:.2f}"]: the nearest number of hundredths, ties to the even one,
    with two decimals. *)
Definition format_2f (x : Q) : string :=
  let magnitude := if Qltb x 0 then - x else x in
  let hundredths := round_half_even (magnitude * 100) in
  (if Qltb x 0 then "-" else EmptyString)
  +:+ pretty (hundredths / 100)%Z +:+ "." +:+ two_digits (hundredths mod 100)%Z.

(** The units the loop goes through. *)
Definition units : list string := ["B"; "KB"; "MB"; "GB"; "TB"].

(** The [for unit in ...] loop and the [return] after it (lines 27-31).
    [[
        for unit in ['B', 'KB', 'MB', 'GB', 'TB']:
            if size_bytes < 1024:
                return f"{size_bytes:.2f} {unit}"
            size_bytes /= 1024
        return f"{size_bytes:.2f} PB"
    ]] *)
Fixpoint format_size_loop (units : list string) (size_bytes : Q) : string :=
  match units with
  | [] => format_2f size_bytes +:+ " PB"
  | unit :: units =>
      if Qltb size_bytes 1024 then format_2f size_bytes +:+ " " +:+ unit
      else format_size_loop units (size_bytes / 1024)
  end.

(** [format_size(size_bytes)] for an integer.  A float is modelled by the
    rational it stands for: dividing by 1024 is exact on floats, and so is
    the conversion of an integer below 2^53. *)
Definition format_size (size_bytes : Z) : string :=
  format_size_loop units (inject_Z size_bytes).

(** The name of the unit number [k]. *)
Definition unit_name (k : nat) : string := nth k units "PB".

End SystemHandler.

(** * Facts about [split_message] *)

Module HelpersFacts.

Import Helpers.

Lemma rfind_scan_spec c s i found :
  ((c ∉ s) /\ rfind_scan c s i found = found) \/
  (exists k, s !! k = Some c /\ (c ∉ drop (S k) s) /\
             rfind_scan c s i found = (i + Z.of_nat k)%Z).
Proof.
  revert i found. induction s as [|x t IH]; intros i found; cbn [rfind_scan].
  - left. split; [apply not_elem_of_nil | reflexivity].
  - destruct (IH (i + 1)%Z (if Ascii.eqb x c then i else found))
      as [[Hnot Heq] | (k & Hk & Hdrop & Heq)].
    + destruct (Ascii.eqb_spec x c) as [-> | Hne].
      * right. exists 0. cbn. split; [reflexivity |]. split; [exact Hnot |].
        rewrite Heq. lia.
      * left. split; [| exact Heq].
        intros [Hx | Ht]%elem_of_cons; [congruence | contradiction].
    + right. exists (S k). cbn. split; [exact Hk |]. split; [exact Hdrop |].
      rewrite Heq. lia.
Qed.

(** The two ways an iteration picks its cut. *)
Lemma split_index_spec m max_length :
  ((newline ∉ take max_length m) /\
   split_index m max_length = Z.of_nat max_length) \/
  (exists k, k < max_length /\ m !! k = Some newline /\
             (newline ∉ take (max_length - S k) (drop (S k) m)) /\
             split_index m max_length = Z.of_nat k).
Proof.
  unfold split_index, rfind. rewrite Nat.sub_0_r, drop_0.
  change (Z.of_nat 0) with 0%Z.
  destruct (rfind_scan_spec newline (take max_length m) 0%Z (-1)%Z)
    as [[Hnot Heq] | (k & Hk & Hdrop & Heq)].
  - left. rewrite Heq. cbn. split; [exact Hnot | reflexivity].
  - right. exists k. apply lookup_take_Some in Hk as [Hk Hlt].
    split; [exact Hlt |]. split; [exact Hk |]. split.
    + rewrite take_drop_commute.
      replace (S k + (max_length - S k)) with max_length by lia. exact Hdrop.
    + rewrite Heq. destruct (Z.eqb_spec (0 + Z.of_nat k) (-1)); lia.
Qed.

Lemma split_index_nonneg m max_length : (0 <= split_index m max_length)%Z.
Proof.
  destruct (split_index_spec m max_length) as [[_ ->] | (k & _ & _ & _ & ->)]; lia.
Qed.

Lemma split_index_le m max_length :
  (split_index m max_length <= Z.of_nat max_length)%Z.
Proof.
  destruct (split_index_spec m max_length) as [[_ ->] | (k & ? & _ & _ & ->)]; lia.
Qed.

(** What the loop appends obeys [split_spec]. *)
Lemma split_loop_sound fuel max_length parts m out :
  split_loop fuel max_length parts m = Some out ->
  exists rest, out = parts ++ rest /\ split_spec max_length m rest.
Proof.
  revert parts m. induction fuel as [|fuel IH]; intros parts m; cbn [split_loop].
  - discriminate.
  - destruct (Nat.ltb_spec max_length (length m)) as [Hlong | Hfits].
    + intros Hrun. apply IH in Hrun as (rest & -> & Hrest).
      destruct (split_index_spec m max_length)
        as [[Hnot Heq] | (k & Hk & Hnl & Hlast & Heq)];
        rewrite Heq, Nat2Z.id in *.
      * exists (take max_length m :: rest). split.
        -- rewrite <- app_assoc. reflexivity.
        -- apply split_hard; assumption.
      * exists (take k m :: rest). split.
        -- rewrite <- app_assoc. reflexivity.
        -- apply split_at_newline; assumption.
    + intros [= <-]. exists [m]. split; [reflexivity |].
      apply split_fits. exact Hfits.
Qed.

Lemma split_spec_concat max_length m parts :
  split_spec max_length m parts -> concat parts = m.
Proof.
  induction 1 as [m _ | m i rest _ _ _ _ _ IH | m rest _ _ _ IH]; cbn [concat].
  - apply app_nil_r.
  - rewrite IH. apply take_drop.
  - rewrite IH. apply take_drop.
Qed.

Lemma split_spec_lengths max_length m parts :
  split_spec max_length m parts ->
  Forall (fun p => length p <= max_length) parts.
Proof.
  induction 1 as [m Hfits | m i rest _ Hi _ _ _ IH | m rest _ _ _ IH].
  - apply Forall_cons. split; [exact Hfits | apply Forall_nil_2].
  - apply Forall_cons. split; [| exact IH]. rewrite length_take. lia.
  - apply Forall_cons. split; [| exact IH]. rewrite length_take. lia.
Qed.

(** A stuck remainder stays stuck: the loop appends an empty part and meets
    the same remainder again. *)
Lemma stuck_diverges max_length m :
  stuck max_length m = true ->
  forall fuel parts, split_loop fuel max_length parts m = None.
Proof.
  unfold stuck. intros [Hlong Hzero%Z.eqb_eq]%andb_true_iff fuel.
  induction fuel as [|fuel IH]; intros parts; cbn [split_loop]; [reflexivity |].
  rewrite Hlong, Hzero. cbn [Z.to_nat]. rewrite drop_0. apply IH.
Qed.

Lemma no_stuck_suffix_spec max_length m :
  no_stuck_suffix max_length m = true <->
  forall k, stuck max_length (drop k m) = false.
Proof.
  unfold no_stuck_suffix. rewrite forallb_forall. split.
  - intros Hall k. destruct (Nat.le_gt_cases k (length m)) as [Hk | Hk].
    + apply negb_true_iff, Hall, in_seq. lia.
    + unfold stuck. rewrite drop_ge by lia. cbn [length].
      destruct (Nat.ltb_spec max_length 0); [lia | reflexivity].
  - intros Hall k _. apply negb_true_iff, Hall.
Qed.

Lemma no_stuck_suffix_drop max_length m i :
  no_stuck_suffix max_length m = true ->
  no_stuck_suffix max_length (drop i m) = true.
Proof.
  rewrite !no_stuck_suffix_spec. intros Hall k. rewrite drop_drop. apply Hall.
Qed.

(** An iteration on a remainder that is not stuck removes something. *)
Lemma progress_shrinks max_length m :
  max_length < length m ->
  stuck max_length m = false ->
  length (drop (Z.to_nat (split_index m max_length)) m) < length m.
Proof.
  unfold stuck. intros Hlong Hstuck.
  apply Nat.ltb_lt in Hlong as Hlong'. rewrite Hlong' in Hstuck.
  cbn [andb] in Hstuck. apply Z.eqb_neq in Hstuck.
  pose proof (split_index_nonneg m max_length).
  rewrite length_drop. lia.
Qed.

(** With no stuck suffix, the loop finishes within [length m] iterations. *)
Lemma split_loop_total max_length m :
  no_stuck_suffix max_length m = true ->
  forall fuel parts, length m < fuel ->
    is_Some (split_loop fuel max_length parts m).
Proof.
  intros Hprog fuel. revert m Hprog.
  induction fuel as [|fuel IH]; intros m Hprog parts Hfuel; [lia |].
  cbn [split_loop].
  destruct (Nat.ltb_spec max_length (length m)) as [Hlong | Hfits].
  - apply IH.
    + apply no_stuck_suffix_drop. exact Hprog.
    + pose proof (proj1 (no_stuck_suffix_spec max_length m) Hprog 0) as H0.
      rewrite drop_0 in H0.
      pose proof (progress_shrinks max_length m Hlong H0). lia.
  - eexists. reflexivity.
Qed.

(** More fuel does not change an answer. *)
Lemma split_loop_fuel_mono fuel fuel' max_length parts m out :
  split_loop fuel max_length parts m = Some out ->
  fuel <= fuel' ->
  split_loop fuel' max_length parts m = Some out.
Proof.
  revert fuel' parts m. induction fuel as [|fuel IH]; intros fuel' parts m;
    cbn [split_loop]; [discriminate |].
  intros Hrun Hle. destruct fuel' as [|fuel']; [lia |]. cbn [split_loop].
  destruct (max_length <? length m); [| exact Hrun].
  apply IH; [exact Hrun | lia].
Qed.

(** The fuel of [split_message] is enough: if the loop finishes with some
    fuel, it finishes with [S (length m)]. *)
Lemma split_loop_fuel_enough fuel max_length parts m out :
  split_loop fuel max_length parts m = Some out ->
  split_loop (S (length m)) max_length parts m = Some out.
Proof.
  revert parts m. induction fuel as [|fuel IH]; intros parts m Hrun;
    [discriminate |].
  cbn [split_loop] in Hrun |- *.
  destruct (Nat.ltb_spec max_length (length m)) as [Hlong | Hfits];
    [| exact Hrun].
  destruct (stuck max_length m) eqn:Hstuck.
  - pose proof Hstuck as [_ Hzero%Z.eqb_eq]%andb_true_iff.
    rewrite Hzero in Hrun. cbn [Z.to_nat] in Hrun. rewrite drop_0 in Hrun.
    rewrite (stuck_diverges _ _ Hstuck) in Hrun. discriminate.
  - apply IH in Hrun.
    eapply split_loop_fuel_mono; [exact Hrun |].
    pose proof (progress_shrinks max_length m Hlong Hstuck). lia.
Qed.

(** The answer [None] of [split_message] is a loop that never ends. *)
Lemma split_message_None message max_length :
  split_message message max_length = None <->
  forall fuel, split_loop fuel max_length [] message = None.
Proof.
  unfold split_message. split; [| intros Hall; apply Hall].
  intros Hnone fuel.
  destruct (split_loop fuel max_length [] message) as [out|] eqn:Hrun;
    [| reflexivity].
  apply split_loop_fuel_enough in Hrun. congruence.
Qed.

(** A text without a newline has no stuck suffix: it is cut every
    [max_length] characters. *)
Lemma no_newline_no_stuck max_length m :
  0 < max_length -> newline ∉ m -> no_stuck_suffix max_length m = true.
Proof.
  intros Hpos Hnone. apply no_stuck_suffix_spec. intros k. unfold stuck.
  destruct (max_length <? length (drop k m)); [| reflexivity]. cbn [andb].
  apply Z.eqb_neq.
  destruct (split_index_spec (drop k m) max_length)
    as [[_ ->] | (i & _ & Hi & _ & _)]; [lia |].
  destruct Hnone. rewrite lookup_drop in Hi.
  eapply list_elem_of_lookup_2. exact Hi.
Qed.

(** The 5000 characters of [fifty_lines] come back in two parts, cut at the
    newline that ends the fortieth line. *)
Example split_fifty_lines :
  split_message fifty_lines default_max_length
  = Some [take 3999 fifty_lines; drop 3999 fifty_lines] /\
  length (take 3999 fifty_lines) = 3999 /\
  length (drop 3999 fifty_lines) = 1001 /\
  head (drop 3999 fifty_lines) = Some newline.
Proof. repeat split; vm_compute; reflexivity. Qed.

(** Whenever [split_message] returns, its parts obey [split_spec]. *)
Lemma split_message_sound message max_length parts :
  split_message message max_length = Some parts ->
  split_spec max_length message parts.
Proof.
  unfold split_message. intros Hrun.
  apply split_loop_sound in Hrun as (rest & -> & Hspec). exact Hspec.
Qed.

(** C8 (amended): for a text none of whose suffixes is a stuck remainder,
    [split_message] returns parts that are cut at the last newline among
    the first [max_length] characters of what remains, or after exactly
    [max_length] characters when these hold no newline; every part has at
    most [max_length] characters and the parts, concatenated in order, are
    the text. *)
Theorem split_message_parts message max_length :
  no_stuck_suffix max_length message = true ->
  exists parts,
    split_message message max_length = Some parts /\
    split_spec max_length message parts /\
    Forall (fun p => length p <= max_length) parts /\
    concat parts = message.
Proof.
  intros Hprog.
  destruct (split_loop_total max_length message Hprog
              (S (length message)) []) as [parts Hrun]; [lia |].
  exists parts. pose proof (split_message_sound _ _ _ Hrun) as Hspec.
  split; [exact Hrun |]. split; [exact Hspec |]. split.
  - eapply split_spec_lengths. exact Hspec.
  - eapply split_spec_concat. exact Hspec.
Qed.

Lemma split_message_parts_witness :
  exists parts,
    split_message short_lines 5 = Some parts /\
    split_spec 5 short_lines parts /\
    Forall (fun p => length p <= 5) parts /\
    concat parts = short_lines.
Proof. apply (split_message_parts short_lines 5). vm_compute. reflexivity. Defined.

(** C8 as stated fails: a text of 4001 characters without a newline is cut
    after its 4000th character, inside the line. *)
Lemma split_message_cuts_inside_a_line : ~ newline_cuts_claim.
Proof.
  intros Hclaim.
  destruct (Hclaim one_long_line) as (parts & Hrun & _ & Hcuts & _).
  { apply Nat.ltb_lt. vm_compute. reflexivity. }
  assert (split_message one_long_line default_max_length
          = Some [repeat "a"%char 4000; ["a"%char]]) as Heval
    by (vm_compute; reflexivity).
  rewrite Heval in Hrun. injection Hrun as <-.
  unfold only_newline_cuts in Hcuts. cbn [tail] in Hcuts.
  apply Forall_cons in Hcuts as [Hhead _]. discriminate Hhead.
Qed.

(** C9 (the code loops): on a newline followed by a line of 4000
    characters the loop cuts at index 0, appends an empty part and meets the
    same remainder again, whatever the number of iterations; so
    [split_message] does not return. *)
Theorem split_message_loops_forever :
  stuck default_max_length newline_then_long_line = true /\
  (forall fuel parts,
     split_loop fuel default_max_length parts newline_then_long_line = None) /\
  split_message newline_then_long_line default_max_length = None.
Proof.
  assert (stuck default_max_length newline_then_long_line = true) as Hstuck
    by (vm_compute; reflexivity).
  split; [exact Hstuck |]. split.
  - apply stuck_diverges. exact Hstuck.
  - apply split_message_None. intros fuel. apply stuck_diverges. exact Hstuck.
Qed.

End HelpersFacts.

(** * Facts about [SyncMonitor] *)

Module SyncFacts.

Import SyncService.

Local Open Scope Q_scope.

Ltac run_m :=
  cbv [mbind mret M_bind M_ret raise lift get_self set_last_height
       set_last_check_time set_sync_speed emit try_except].

Lemma Qltb_lt x y : Qltb x y = true <-> x < y.
Proof.
  unfold Qltb. rewrite Qlt_alt. destruct (x ?= y); split; congruence.
Qed.


(** A division by a positive number does not raise. *)
Lemma truediv_pos x y : Qltb 0 y = true -> truediv x y = Ok (x / y).
Proof.
  intros Hpos%Qltb_lt. unfold truediv.
  destruct (Qeq_bool y 0) eqn:Hzero; [| reflexivity].
  apply Qeq_bool_eq in Hzero. rewrite Hzero in Hpos.
  destruct (Qlt_irrefl _ Hpos).
Qed.

Lemma inject_Z_pos z : (0 <? z)%Z = true -> Qltb 0 (inject_Z z) = true.
Proof.
  intros Hpos%Z.ltb_lt. apply Qltb_lt. unfold Qlt. cbn. lia.
Qed.

(** One step through a method: discharge a guarded division, or split on
    the next test. *)
Ltac step_m :=
  match goal with
  | H : Qltb 0 ?y = true |- context [truediv ?x ?y] =>
      rewrite (truediv_pos x y H)
  | H : (0 <? ?z)%Z = true |- context [truediv ?x (inject_Z ?z)] =>
      rewrite (truediv_pos x _ (inject_Z_pos z H))
  | H : Qltb 0 ?y && _ = true |- context [truediv ?x ?y] =>
      rewrite (truediv_pos x y (proj1 (andb_prop _ _ H)))
  | |- context [if ?b then _ else _] => destruct b eqn:?
  | |- context [match ?o with Some _ => _ | None => _ end] => destruct o
  | |- context [match ?r with Ok _ => _ | Raise _ => _ end] => destruct r
  end.

(** The method in closed form: where both attributes are written, what
    [self.sync_speed] becomes, and what is returned or raised. *)
Lemma calculate_sync_metrics_run now current_height network_height node_status st :
  calculate_sync_metrics now current_height network_height node_status st =
  let speed := updated_sync_speed (self st) now current_height in
  let '(sync_percent, blocks_behind) :=
    sync_progress current_height network_height in
  ({| self := {| last_height := current_height;
                 last_check_time := Some now;
                 sync_speed := speed |};
      trace := trace st |},
   match estimate_time_remaining speed blocks_behind with
   | Raise e => Raise e
   | Ok time_remaining =>
       match read_catching_up node_status with
       | Raise e => Raise e
       | Ok cu =>
           Ok {| m_current_height := current_height;
                 m_network_height := network_height;
                 m_blocks_behind := blocks_behind;
                 m_sync_percent := sync_percent;
                 m_sync_speed := speed;
                 m_time_remaining := time_remaining;
                 m_catching_up := cu |}
       end
   end).
Proof.
  unfold calculate_sync_metrics, sync_progress, updated_sync_speed,
    estimate_time_remaining.
  destruct st as [[lh lt sp] tr]. run_m.
  cbn [self trace last_height last_check_time sync_speed].
  repeat (step_m; cbn [self trace last_height last_check_time sync_speed]);
    first [reflexivity | congruence].
Qed.

(** What a returned dictionary holds. *)
Lemma calculate_sync_metrics_returns now current_height network_height
    node_status st metrics :
  snd (calculate_sync_metrics now current_height network_height node_status st)
  = Ok metrics ->
  let speed := updated_sync_speed (self st) now current_height in
  m_sync_percent metrics = fst (sync_progress current_height network_height) /\
  m_blocks_behind metrics = snd (sync_progress current_height network_height) /\
  m_sync_speed metrics = speed /\
  estimate_time_remaining speed (m_blocks_behind metrics)
  = Ok (m_time_remaining metrics) /\
  read_catching_up node_status = Ok (m_catching_up metrics).
Proof.
  rewrite calculate_sync_metrics_run. cbv zeta.
  destruct (sync_progress current_height network_height) as [sp bb].
  cbn [fst snd].
  destruct (estimate_time_remaining _ bb) as [tr|] eqn:Heta; [| discriminate].
  destruct (read_catching_up node_status) as [cu|] eqn:Hcu; [| discriminate].
  intros [= <-]. cbn [m_sync_percent m_blocks_behind m_sync_speed
    m_time_remaining m_catching_up].
  repeat split; assumption.
Qed.

(** The state a call leaves, whether it returns or raises. *)
Lemma calculate_sync_metrics_state now current_height network_height
    node_status st :
  fst (calculate_sync_metrics now current_height network_height node_status st)
  = {| self := {| last_height := current_height;
                  last_check_time := Some now;
                  sync_speed := updated_sync_speed (self st) now current_height |};
       trace := trace st |}.
Proof.
  rewrite calculate_sync_metrics_run. cbv zeta.
  destruct (sync_progress current_height network_height). reflexivity.
Qed.

(** The only exceptions of a call: too long a duration for [timedelta], and
    a status document without [catching_up]. *)
Lemma calculate_sync_metrics_raises now current_height network_height
    node_status st e :
  snd (calculate_sync_metrics now current_height network_height node_status st)
  = Raise e ->
  e = OverflowError \/ e = KeyError "catching_up".
Proof.
  rewrite calculate_sync_metrics_run. cbv zeta.
  destruct (sync_progress current_height network_height) as [sp bb].
  cbn [snd]. unfold estimate_time_remaining, timedelta_str, read_catching_up.
  repeat match goal with
         | |- context [if ?b then _ else _] => destruct b
         | |- context [match ?o with Some _ => _ | None => _ end] => destruct o
         end; intros [= <-]; auto.
Qed.

(** A call returns when the status document has [catching_up] and the
    estimate fits a [timedelta]. *)
Lemma calculate_sync_metrics_total now current_height network_height
    node_status st :
  is_Some (catching_up node_status) ->
  estimate_fits (updated_sync_speed (self st) now current_height)
                (snd (sync_progress current_height network_height)) ->
  exists metrics,
    snd (calculate_sync_metrics now current_height network_height
                                node_status st) = Ok metrics.
Proof.
  intros [cu Hcu] Hfits. rewrite calculate_sync_metrics_run. cbv zeta.
  destruct (sync_progress current_height network_height) as [sp bb].
  cbn [fst snd] in *. unfold read_catching_up. rewrite Hcu.
  unfold estimate_time_remaining.
  destruct (Qltb 0 _ && (0 <? bb)%Z) eqn:Hgo; [| eexists; reflexivity].
  apply andb_true_iff in Hgo as [Hs%Qltb_lt Hb%Z.ltb_lt].
  specialize (Hfits Hs Hb). unfold timedelta_str.
  destruct (Z.ltb_spec 999999999 (Z.abs (Qtrunc
              (inject_Z bb / updated_sync_speed (self st) now current_height)
              / 86400))) as [Hover | _]; [lia |].
  eexists. reflexivity.
Qed.

(** On a first poll there is no estimate to fit. *)
Lemma estimate_fits_new now current_height blocks_behind :
  estimate_fits (updated_sync_speed SyncMonitor_new now current_height)
                blocks_behind.
Proof. intros Hpos. destruct (Qlt_irrefl 0 Hpos). Qed.

(** The first poll of a monitor: no speed, no estimate. *)
Lemma first_poll now current_height network_height node_status st metrics :
  self st = SyncMonitor_new ->
  snd (calculate_sync_metrics now current_height network_height node_status st)
  = Ok metrics ->
  m_sync_speed metrics = 0 /\ m_time_remaining metrics = None.
Proof.
  intros Hnew (_ & _ & Hspeed & Heta & _)%calculate_sync_metrics_returns.
  rewrite Hnew in Hspeed, Heta. split; [exact Hspeed |].
  change (Ok (@None string) = Ok (m_time_remaining metrics)) in Heta.
  congruence.
Qed.




(** C5 as stated fails: network height 0 and local height 0 give 100. *)
Lemma zero_network_height_reports_100 : ~ zero_network_height_claim.
Proof.
  intros Hclaim.
  specialize (Hclaim (state_of SyncMonitor_new) 0%Z 0%Z (status_at 0) _ eq_refl).
  cbn in Hclaim. discriminate Hclaim.
Qed.

(** C5 (amended): with a network height of 0 no call raises
    [ZeroDivisionError], and a call returns when the status document has
    [catching_up] and the estimate fits; a returned [sync_percent] is 100,
    with [blocks_behind] 0, whenever the local height is at least 0, and it
    is 0 only for a negative local height. *)
Theorem percent_at_zero_network_height now current_height node_status st :
  snd (calculate_sync_metrics now current_height 0 node_status st)
  <> Raise ZeroDivisionError /\
  (is_Some (catching_up node_status) ->
   estimate_fits (updated_sync_speed (self st) now current_height)
                 (snd (sync_progress current_height 0)) ->
   exists metrics,
     snd (calculate_sync_metrics now current_height 0 node_status st)
     = Ok metrics) /\
  forall metrics,
    snd (calculate_sync_metrics now current_height 0 node_status st)
    = Ok metrics ->
    ((0 <= current_height)%Z ->
       m_sync_percent metrics = 100 /\ m_blocks_behind metrics = 0%Z) /\
    ((current_height < 0)%Z ->
       m_sync_percent metrics == 0 /\
       m_blocks_behind metrics = (- current_height)%Z).
Proof.
  split; [| split].
  - intros [Habs | Habs]%calculate_sync_metrics_raises; discriminate Habs.
  - apply calculate_sync_metrics_total.
  - intros metrics (Hsp & Hbb & _)%calculate_sync_metrics_returns.
    rewrite Hsp, Hbb. unfold sync_progress.
    destruct (Z.ltb_spec 0 (0 - current_height)) as [Hneg | Hpos];
      cbn [fst snd].
    + split; [lia |]. intros _. split; [reflexivity | lia].
    + split; [| lia]. intros _. split; reflexivity.
Qed.

Lemma percent_at_zero_network_height_witness :
  exists metrics,
    snd (calculate_sync_metrics 0 5 0 (status_at 5) (state_of SyncMonitor_new))
    = Ok metrics /\
    m_sync_percent metrics = 100 /\ m_blocks_behind metrics = 0%Z.
Proof.
  refine (let H := percent_at_zero_network_height 0 5 (status_at 5)
                     (state_of SyncMonitor_new) in _).
  destruct H as (_ & Hreturns & Hvalues).
  destruct Hreturns as [metrics Hret].
  - eexists. reflexivity.
  - apply estimate_fits_new.
  - exists metrics. split; [exact Hret |].
    destruct (Hvalues metrics Hret) as [H _]. apply H. lia.
Defined.



(** ** The queries *)

Lemma answers_height r h : answers r h <-> endpoint_height r = Some h.
Proof.
  split.
  - intros (data & -> & Hh). cbn. rewrite Hh. reflexivity.
  - destruct r as [detail | status [data|]]; cbn; try discriminate.
    destruct (Z.eqb_spec status 200) as [-> |]; [| discriminate].
    destruct (latest_block_height data) as [| | h'] eqn:Hh; try discriminate.
    intros [= ->]. exists data. split; [reflexivity | exact Hh].
Qed.

Lemma fails_height r : fails r <-> endpoint_height r = None.
Proof.
  split.
  - intros [detail | status body Hne | status | status data Hh | status data Hh];
      cbn; try reflexivity.
    + destruct body; [| reflexivity].
      destruct (Z.eqb_spec status 200); [contradiction | reflexivity].
    + rewrite Hh. destruct (status =? 200)%Z; reflexivity.
    + rewrite Hh. destruct (status =? 200)%Z; reflexivity.
  - destruct r as [detail | status [data|]]; cbn.
    + intros _. apply fails_unreachable.
    + destruct (Z.eqb_spec status 200) as [-> | Hne];
        [| intros _; apply fails_status; exact Hne].
      destruct (latest_block_height data) eqn:Hh; try discriminate; intros _.
      * apply fails_no_height. exact Hh.
      * apply fails_bad_height. exact Hh.
    + intros _. apply fails_not_json.
Qed.

Lemma bind_run {A B} (m : M A) (k : A -> M B) st :
  (m ≫= k) st =
  match m st with
  | (st', Ok a) => k a st'
  | (st', Raise e) => (st', Raise e)
  end.
Proof. reflexivity. Qed.

(** One guarded [try] block: the endpoint is requested once, [self] is not
    touched, and the block yields the endpoint's height if it has one. *)
Lemma fetch_height_run net e st :
  let after :=
    try_except (fetch_height net e)
               (fun _ => emit (LogWarning e);; mret None) st in
  self (fst after) = self st /\
  requests (trace (fst after)) = requests (trace st) ++ [e] /\
  snd after = Ok (endpoint_height (net e)).
Proof.
  unfold fetch_height, requests, json, parse_height, endpoint_height. run_m.
  destruct (net e) as [detail | status [data|]]; cbn [fst snd self trace];
    try destruct (status =? 200)%Z; try destruct (latest_block_height data);
    cbn [fst snd self trace];
    rewrite ?omap_app; cbn [omap list_omap]; rewrite ?app_nil_r; auto.
Qed.

(** [get_network_height]: endpoint 1 first, endpoint 2 only when endpoint 1
    yields nothing; [self] is not touched. *)
Lemma get_network_height_run net st :
  let after := get_network_height net st in
  self (fst after) = self st /\
  match endpoint_height (net RPC_ENDPOINT_1) with
  | Some h =>
      snd after = Ok h /\
      requests (trace (fst after)) = requests (trace st) ++ [RPC_ENDPOINT_1]
  | None =>
      snd after = match endpoint_height (net RPC_ENDPOINT_2) with
                  | Some h => Ok h
                  | None => Raise no_network_height
                  end /\
      requests (trace (fst after))
      = requests (trace st) ++ [RPC_ENDPOINT_1; RPC_ENDPOINT_2]
  end.
Proof.
  unfold get_network_height. cbv zeta. rewrite bind_run.
  pose proof (fetch_height_run net RPC_ENDPOINT_1 st) as (Hs1 & Ht1 & Hr1).
  destruct (try_except (fetch_height net RPC_ENDPOINT_1) _ st) as [st1 r1].
  cbn [fst snd] in *. subst r1.
  destruct (endpoint_height (net RPC_ENDPOINT_1)) as [h1|].
  - cbn. auto.
  - rewrite bind_run.
    pose proof (fetch_height_run net RPC_ENDPOINT_2 st1) as (Hs2 & Ht2 & Hr2).
    destruct (try_except (fetch_height net RPC_ENDPOINT_2) _ st1) as [st2 r2].
    cbn [fst snd] in *. subst r2.
    rewrite Ht1, <- app_assoc in Ht2.
    destruct (endpoint_height (net RPC_ENDPOINT_2)) as [h2|]; cbn;
      (split; [congruence | split; [reflexivity | exact Ht2]]).
Qed.

(** [get_node_status]: one request to the local node; [self] is not
    touched. *)
Lemma get_node_status_run net st :
  let after := get_node_status net st in
  self (fst after) = self st /\
  requests (trace (fst after)) = requests (trace st) ++ [LOCAL_NODE].
Proof.
  unfold get_node_status, requests, json. run_m.
  destruct (net LOCAL_NODE) as [detail | status [data|]];
    try destruct (negb (status =? 200)%Z); cbn [fst snd self trace];
    rewrite ?omap_app; cbn [omap list_omap]; auto.
Qed.

(** [get_sync_status], query by query. *)
Lemma get_sync_status_run now net st :
  get_sync_status now net st =
  match get_network_height net st with
  | (st1, Raise e) => (log_error st1, Raise e)
  | (st1, Ok network_height) =>
      match get_node_status net st1 with
      | (st2, Raise e) => (log_error st2, Raise e)
      | (st2, Ok node_status) =>
          match parse_height node_status with
          | Raise e => (log_error st2, Raise e)
          | Ok current_height =>
              match calculate_sync_metrics now current_height network_height
                                           node_status st2 with
              | (st3, Raise e) => (log_error st3, Raise e)
              | (st3, Ok metrics) =>
                  (st3,
                   Ok (metrics,
                       (m_blocks_behind metrics <? 100)%Z
                       && negb (m_catching_up metrics)))
              end
          end
      end
  end.
Proof.
  unfold get_sync_status, log_error. run_m.
  destruct (get_network_height net st) as [st1 [network_height | e]];
    [| reflexivity].
  destruct (get_node_status net st1) as [st2 [node_status | e]];
    [| reflexivity].
  destruct (parse_height node_status) as [current_height | e]; [| reflexivity].
  destruct (calculate_sync_metrics _ _ _ _ st2) as [st3 [metrics | e]];
    reflexivity.
Qed.

Lemma requests_log_error st : requests (trace (log_error st)) = requests (trace st).
Proof.
  unfold log_error, requests. cbn [trace]. rewrite omap_app. cbn.
  apply app_nil_r.
Qed.

Lemma NoDup_asked (pre : list endpoint) :
  pre = [RPC_ENDPOINT_1] \/ pre = [RPC_ENDPOINT_1; RPC_ENDPOINT_2] ->
  NoDup pre /\ NoDup (pre ++ [LOCAL_NODE]).
Proof.
  intros [-> | ->]; split; cbn;
    repeat (apply NoDup_cons; split;
            [rewrite ?elem_of_cons, elem_of_nil; intuition discriminate |]);
    apply NoDup_nil_2.
Qed.

(** What [get_sync_status] asks, and to whom. *)
Lemma get_sync_status_requests now net st :
  exists asked,
    requests (trace (fst (get_sync_status now net st)))
    = requests (trace st) ++ asked /\ NoDup asked.
Proof.
  rewrite get_sync_status_run.
  pose proof (get_network_height_run net st) as [_ Hheight]. cbv zeta in Hheight.
  assert (exists pre,
            requests (trace (fst (get_network_height net st)))
            = requests (trace st) ++ pre /\
            (pre = [RPC_ENDPOINT_1] \/ pre = [RPC_ENDPOINT_1; RPC_ENDPOINT_2]))
    as (pre & Hpre & Hshape).
  { destruct (endpoint_height (net RPC_ENDPOINT_1));
      destruct Hheight as [_ Ht]; eauto. }
  destruct (NoDup_asked pre Hshape) as [Hnd Hnd'].
  destruct (get_network_height net st) as [st1 [network_height | e]];
    cbn [fst] in Hpre.
  - pose proof (get_node_status_run net st1) as [_ Hlocal]. cbv zeta in Hlocal.
    rewrite Hpre, <- app_assoc in Hlocal.
    destruct (get_node_status net st1) as [st2 [node_status | e]];
      cbn [fst] in Hlocal.
    + destruct (parse_height node_status) as [current_height | e].
      * pose proof (calculate_sync_metrics_state now current_height
                      network_height node_status st2) as Hstate.
        destruct (calculate_sync_metrics _ _ _ _ st2) as [st3 [metrics | e]];
          cbn [fst] in *; subst st3; exists (pre ++ [LOCAL_NODE]);
          rewrite ?requests_log_error; cbn [trace]; auto.
      * exists (pre ++ [LOCAL_NODE]). cbn [fst].
        rewrite requests_log_error. auto.
    + exists (pre ++ [LOCAL_NODE]). cbn [fst].
      rewrite requests_log_error. auto.
  - exists pre. cbn [fst]. rewrite requests_log_error. auto.
Qed.

(** C3: [get_network_height] asks endpoint 1 first and endpoint 2 only when
    endpoint 1 fails; the first height obtained is returned as it is; when
    both fail it raises, and so does [get_sync_status], which leaves the
    monitor alone and does not ask the local node; [get_sync_status] raises
    the first error of either query and asks no endpoint twice. *)
Theorem network_height_fallback now net st :
  let height := get_network_height net st in
  let status := get_sync_status now net st in
  (forall h,
     answers (net RPC_ENDPOINT_1) h ->
     snd height = Ok h /\
     requests (trace (fst height)) = requests (trace st) ++ [RPC_ENDPOINT_1]) /\
  (forall h,
     fails (net RPC_ENDPOINT_1) ->
     answers (net RPC_ENDPOINT_2) h ->
     snd height = Ok h /\
     requests (trace (fst height))
     = requests (trace st) ++ [RPC_ENDPOINT_1; RPC_ENDPOINT_2]) /\
  (fails (net RPC_ENDPOINT_1) ->
   fails (net RPC_ENDPOINT_2) ->
   snd height = Raise no_network_height /\
   snd status = Raise no_network_height /\
   self (fst status) = self st /\
   requests (trace (fst status))
   = requests (trace st) ++ [RPC_ENDPOINT_1; RPC_ENDPOINT_2]) /\
  (forall e,
     snd height = Raise e ->
     snd status = Raise e /\ self (fst status) = self st) /\
  (forall h e,
     snd height = Ok h ->
     snd (get_node_status net (fst height)) = Raise e ->
     snd status = Raise e /\ self (fst status) = self st) /\
  (exists asked,
     requests (trace (fst status)) = requests (trace st) ++ asked /\
     NoDup asked).
Proof.
  cbv zeta.
  pose proof (get_network_height_run net st) as [Hself Hheight].
  cbv zeta in Hheight.
  assert (forall e,
            snd (get_network_height net st) = Raise e ->
            snd (get_sync_status now net st) = Raise e /\
            self (fst (get_sync_status now net st)) = self st /\
            requests (trace (fst (get_sync_status now net st)))
            = requests (trace (fst (get_network_height net st)))) as Hraise.
  { intros e He. rewrite get_sync_status_run.
    destruct (get_network_height net st) as [st1 r1]. cbn [fst snd] in *.
    subst r1. cbn [fst snd]. rewrite requests_log_error. auto. }
  split; [| split; [| split; [| split; [| split]]]].
  - intros h Hh%answers_height. rewrite Hh in Hheight. exact Hheight.
  - intros h H1%fails_height H2%answers_height.
    rewrite H1, H2 in Hheight. exact Hheight.
  - intros H1%fails_height H2%fails_height.
    rewrite H1, H2 in Hheight. destruct Hheight as [Hr Ht].
    destruct (Hraise _ Hr) as (Hs & Hm & Hq).
    rewrite Hq, Ht. auto.
  - intros e He. destruct (Hraise _ He) as (Hs & Hm & _). auto.
  - intros h e Hh He. rewrite get_sync_status_run.
    destruct (get_network_height net st) as [st1 r1]. cbn [fst snd] in *.
    subst r1.
    pose proof (get_node_status_run net st1) as [Hself2 _]. cbv zeta in Hself2.
    destruct (get_node_status net st1) as [st2 r2]. cbn [fst snd] in *.
    subst r2. cbn [fst snd log_error self]. split; [reflexivity | congruence].
  - apply get_sync_status_requests.
Qed.

Lemma network_height_fallback_witness :
  snd (get_network_height degraded_network (state_of SyncMonitor_new)) = Ok 7%Z /\
  requests (trace (fst (get_network_height degraded_network
                                           (state_of SyncMonitor_new))))
  = [RPC_ENDPOINT_1; RPC_ENDPOINT_2].
Proof.
  refine (let H := network_height_fallback 0 degraded_network
                     (state_of SyncMonitor_new) in _).
  destruct H as (_ & H & _). apply (H 7%Z).
  - apply fails_status. discriminate.
  - eexists. split; reflexivity.
Defined.

End SyncFacts.

(** * Facts about [MonitoringService] *)

Module MonitoringFacts.

Import SyncService MonitoringService SyncFacts.

(** ** The job queue *)

Lemma filter_all {A} (P : A -> Prop) `{!forall x, Decision (P x)} (l : list A) :
  Forall P l -> filter P l = l.
Proof.
  induction 1 as [|x l Hx _ IH]; [reflexivity |].
  rewrite filter_cons_True by exact Hx. rewrite IH. reflexivity.
Qed.

Lemma filter_none {A} (P : A -> Prop) `{!forall x, Decision (P x)} (l : list A) :
  Forall (fun x => ~ P x) l -> filter P l = [].
Proof.
  induction 1 as [|x l Hx _ IH]; [reflexivity |].
  rewrite filter_cons_False by exact Hx. exact IH.
Qed.

Lemma filter_ext_in {A} (P1 P2 : A -> Prop)
    `{!forall x, Decision (P1 x), !forall x, Decision (P2 x)} (l : list A) :
  Forall (fun x => P1 x <-> P2 x) l -> filter P1 l = filter P2 l.
Proof.
  induction 1 as [|x l Hx _ IH]; [reflexivity |].
  destruct (decide (P1 x)) as [H1 | H1].
  - rewrite !filter_cons_True by tauto. rewrite IH. reflexivity.
  - rewrite !filter_cons_False by tauto. exact IH.
Qed.

(** In a list whose images under [f] are pairwise distinct, [f] tells the
    elements apart. *)
Lemma NoDup_fmap_eq {A B} (f : A -> B) (l : list A) x y :
  NoDup (f <$> l) -> x ∈ l -> y ∈ l -> f x = f y -> x = y.
Proof.
  induction l as [|a l IH]; cbn [fmap list_fmap].
  - intros _ Hx. destruct (not_elem_of_nil _ Hx).
  - intros [Ha Hnd]%NoDup_cons [-> | Hx]%elem_of_cons [-> | Hy]%elem_of_cons Heq.
    + reflexivity.
    + destruct Ha. rewrite Heq. apply list_elem_of_fmap_2. exact Hy.
    + destruct Ha. rewrite <- Heq. apply list_elem_of_fmap_2. exact Hx.
    + apply IH; assumption.
Qed.

(** The removal loop of [deactivate_monitoring] takes out of the queue the
    jobs whose identity is that of a listed job. *)
Lemma removal_loop (current_jobs : list Job) (q : JobQueue) :
  let q' := foldl (fun q job => schedule_removal job q) q current_jobs in
  next_job_id q' = next_job_id q /\
  jobs q' = filter (fun j => job_id j ∉ job_id <$> current_jobs) (jobs q).
Proof.
  revert q. induction current_jobs as [|job rest IH]; intros q; cbn [foldl].
  - split; [reflexivity |]. symmetry. apply filter_all, Forall_forall.
    intros j _. apply not_elem_of_nil.
  - destruct (IH (schedule_removal job q)) as [Hnext Hjobs].
    cbv zeta. rewrite Hnext, Hjobs. split; [reflexivity |].
    cbn [schedule_removal jobs]. rewrite list_filter_filter.
    apply list_filter_iff. intros j. cbn [fmap list_fmap].
    rewrite not_elem_of_cons. tauto.
Qed.

(** After the loop no job carries the name... *)
Lemma removal_loop_by_name (q : JobQueue) (name : string) :
  let q' := foldl (fun q job => schedule_removal job q) q
                  (get_jobs_by_name q name) in
  get_jobs_by_name q' name = [].
Proof.
  cbv zeta. unfold get_jobs_by_name at 1.
  destruct (removal_loop (get_jobs_by_name q name) q) as [_ ->].
  apply filter_none, Forall_forall.
  intros j [Hid Hj]%list_elem_of_filter Hname. apply Hid.
  apply list_elem_of_fmap_2. unfold get_jobs_by_name.
  apply list_elem_of_filter. split; assumption.
Qed.

(** ... and, job identities being distinct, every other job stays. *)
Lemma removal_loop_others (q : JobQueue) (name : string) :
  wf_queue q ->
  let q' := foldl (fun q job => schedule_removal job q) q
                  (get_jobs_by_name q name) in
  jobs q' = filter (fun j => job_name j <> name) (jobs q).
Proof.
  intros [Hnd _]. cbv zeta.
  destruct (removal_loop (get_jobs_by_name q name) q) as [_ ->].
  apply filter_ext_in, Forall_forall. intros j Hj. split.
  - intros Hid Hname. apply Hid, list_elem_of_fmap_2.
    unfold get_jobs_by_name. apply list_elem_of_filter. split; assumption.
  - intros Hname (j' & Heq & Hj')%list_elem_of_fmap.
    unfold get_jobs_by_name in Hj'.
    apply list_elem_of_filter in Hj' as [Hname' Hj'].
    apply Hname. rewrite (NoDup_fmap_eq job_id (jobs q) j j' Hnd Hj Hj' Heq).
    exact Hname'.
Qed.

Lemma monitoring_active_insert chat_data b :
  monitoring_active (<["monitoring" := PyBool b]> chat_data) = b.
Proof.
  unfold monitoring_active. rewrite lookup_insert_eq. reflexivity.
Qed.

Lemma NoDup_fmap_filter {A B} (f : A -> B) (P : A -> Prop)
    `{!forall x, Decision (P x)} (l : list A) :
  NoDup (f <$> l) -> NoDup (f <$> filter P l).
Proof.
  induction l as [|a l IH]; cbn [fmap list_fmap]; [intros; apply NoDup_nil_2 |].
  intros [Ha Hnd]%NoDup_cons. rewrite filter_cons.
  destruct (decide (P a)); [| apply IH; exact Hnd].
  cbn [fmap list_fmap]. apply NoDup_cons. split; [| apply IH; exact Hnd].
  intros (x & Heq & [_ Hx]%list_elem_of_filter)%list_elem_of_fmap.
  apply Ha. rewrite Heq. apply list_elem_of_fmap_2. exact Hx.
Qed.

Lemma wf_run_repeating q interval first chat_id name :
  wf_queue q -> wf_queue (run_repeating q interval first chat_id name).
Proof.
  intros [Hnd Hlt]. unfold wf_queue, run_repeating. cbn [jobs next_job_id].
  split.
  - rewrite fmap_app. cbn [fmap list_fmap job_id]. apply NoDup_app.
    split; [exact Hnd |]. split; [| apply NoDup_singleton].
    intros id (j & -> & Hj)%list_elem_of_fmap Hin.
    apply list_elem_of_singleton in Hin.
    rewrite Forall_forall in Hlt. specialize (Hlt j Hj). lia.
  - apply Forall_app. split.
    + eapply Forall_impl; [exact Hlt |]. cbn beta. intros j ?. lia.
    + apply Forall_singleton. cbn [job_id]. lia.
Qed.

Lemma wf_removal_loop q current_jobs :
  wf_queue q ->
  wf_queue (foldl (fun q job => schedule_removal job q) q current_jobs).
Proof.
  intros [Hnd Hlt]. unfold wf_queue.
  destruct (removal_loop current_jobs q) as [-> ->]. split.
  - apply NoDup_fmap_filter. exact Hnd.
  - rewrite Forall_forall in *. intros j [_ Hj]%list_elem_of_filter.
    apply Hlt. exact Hj.
Qed.

(** Distinct chats have distinct job names. *)
Lemma monitor_name_inj c1 c2 : monitor_name c1 = monitor_name c2 -> c1 = c2.
Proof.
  unfold monitor_name. cbn [String.append]. intros [= Heq].
  exact (pretty_Z_inj c1 c2 Heq).
Qed.

Lemma get_jobs_by_name_run_repeating q interval first chat_id name n :
  get_jobs_by_name (run_repeating q interval first chat_id name) n
  = get_jobs_by_name q n
    ++ (if decide (name = n)
        then [ {| job_id := next_job_id q; job_name := name;
                  job_chat_id := chat_id; job_interval := interval;
                  job_first := first |} ]
        else []).
Proof.
  unfold get_jobs_by_name, run_repeating. cbn [jobs]. rewrite filter_app.
  f_equal.
Qed.

(** ** The reachable bots *)

Lemma chat_data_of_insert_eq m q fl out chat_id v :
  chat_data_of {| bot_chat_data := <[chat_id := v]> m; bot_job_queue := q;
                  bot_in_flight := fl; bot_outbox := out |} chat_id = v.
Proof. unfold chat_data_of. cbn. rewrite lookup_insert_eq. reflexivity. Qed.

Lemma chat_data_of_insert_ne m q fl out chat_id v b c :
  chat_id <> c ->
  bot_chat_data b = m ->
  chat_data_of {| bot_chat_data := <[chat_id := v]> m; bot_job_queue := q;
                  bot_in_flight := fl; bot_outbox := out |} c
  = chat_data_of b c.
Proof.
  intros Hne <-. unfold chat_data_of. cbn.
  rewrite lookup_insert_ne by exact Hne. reflexivity.
Qed.

Lemma bot_inv_new : bot_inv Bot_new.
Proof.
  split.
  - split; [apply NoDup_nil_2 | apply Forall_nil_2].
  - intros c. reflexivity.
Qed.

Lemma bot_inv_activate b chat_id interval :
  bot_inv b -> bot_inv (handle_activate b chat_id interval).
Proof.
  intros [Hwf Hcount]. unfold handle_activate, activate_monitoring.
  destruct (monitoring_active (chat_data_of b chat_id)) eqn:Hact.
  - split; [exact Hwf |]. cbn [bot_job_queue]. intros c.
    destruct (decide (chat_id = c)) as [<- | Hne].
    + rewrite chat_data_of_insert_eq. apply Hcount.
    + rewrite (chat_data_of_insert_ne _ _ _ _ _ _ b c Hne eq_refl).
      apply Hcount.
  - split; [apply wf_run_repeating; exact Hwf |]. cbn [bot_job_queue].
    intros c. rewrite get_jobs_by_name_run_repeating, length_app, Hcount.
    destruct (decide (chat_id = c)) as [<- | Hne].
    + rewrite chat_data_of_insert_eq, monitoring_active_insert, Hact.
      rewrite decide_True by reflexivity. reflexivity.
    + rewrite (chat_data_of_insert_ne _ _ _ _ _ _ b c Hne eq_refl).
      rewrite decide_False by (intros Heq%monitor_name_inj; contradiction).
      cbn [length]. lia.
Qed.

Lemma bot_inv_deactivate b chat_id :
  bot_inv b -> bot_inv (handle_deactivate b chat_id).
Proof.
  intros [Hwf Hcount]. unfold handle_deactivate, deactivate_monitoring.
  destruct (monitoring_active (chat_data_of b chat_id)) eqn:Hact; cbn [negb].
  - split; [apply wf_removal_loop; exact Hwf |]. cbn [bot_job_queue].
    intros c. destruct (decide (chat_id = c)) as [<- | Hne].
    + rewrite chat_data_of_insert_eq, monitoring_active_insert.
      rewrite removal_loop_by_name. reflexivity.
    + rewrite (chat_data_of_insert_ne _ _ _ _ _ _ b c Hne eq_refl).
      rewrite <- Hcount. unfold get_jobs_by_name at 1.
      rewrite (removal_loop_others _ _ Hwf). rewrite list_filter_filter_l.
      * reflexivity.
      * intros j -> Heq%monitor_name_inj. congruence.
  - split; [exact Hwf |]. cbn [bot_job_queue]. intros c.
    destruct (decide (chat_id = c)) as [<- | Hne].
    + rewrite chat_data_of_insert_eq. apply Hcount.
    + rewrite (chat_data_of_insert_ne _ _ _ _ _ _ b c Hne eq_refl).
      apply Hcount.
Qed.

Lemma bot_inv_step b a : bot_inv b -> bot_inv (step b a).
Proof.
  intros Hinv. destruct a as [c i | c | c | c now net]; cbn [step].
  - apply bot_inv_activate. exact Hinv.
  - apply bot_inv_deactivate. exact Hinv.
  - unfold send_monitoring_update_begin.
    destruct (negb _); [exact Hinv | exact Hinv].
  - unfold send_monitoring_update_resume.
    destruct (decide _); [exact Hinv | exact Hinv].
Qed.

Lemma bot_inv_run acts b : bot_inv b -> bot_inv (run b acts).
Proof.
  revert b. induction acts as [|a acts IH]; intros b Hinv; [exact Hinv |].
  apply IH, bot_inv_step. exact Hinv.
Qed.

(** C6: [activate_monitoring] changes nothing and returns false when the
    chat's flag is set; otherwise it sets the flag, schedules one job under
    the chat's name with the given interval and a first delay of 10
    seconds, and returns true, so that a second call changes nothing.
    [deactivate_monitoring] changes nothing and returns false when the flag
    is not set, as for a chat never activated; otherwise it clears the
    flag, removes every job under the chat's name, and returns true.  In
    every bot the event loop can reach, a chat has exactly one job when its
    flag is set and none otherwise. *)
Theorem activate_and_deactivate chat_data job_queue chat_id interval :
  (monitoring_active chat_data = true ->
   activate_monitoring chat_data job_queue chat_id interval
   = (chat_data, job_queue, false)) /\
  (monitoring_active chat_data = false ->
   exists chat_data' job_queue',
     activate_monitoring chat_data job_queue chat_id interval
     = (chat_data', job_queue', true) /\
     monitoring_active chat_data' = true /\
     jobs job_queue'
     = jobs job_queue
       ++ [ {| job_id := next_job_id job_queue;
               job_name := monitor_name chat_id;
               job_chat_id := chat_id;
               job_interval := interval;
               job_first := 10 |} ] /\
     activate_monitoring chat_data' job_queue' chat_id interval
     = (chat_data', job_queue', false) /\
     (get_jobs_by_name job_queue (monitor_name chat_id) = [] ->
      length (get_jobs_by_name job_queue' (monitor_name chat_id)) = 1)) /\
  (monitoring_active chat_data = false ->
   deactivate_monitoring chat_data job_queue chat_id
   = (chat_data, job_queue, false)) /\
  deactivate_monitoring ∅ job_queue chat_id = (∅, job_queue, false) /\
  (monitoring_active chat_data = true ->
   exists chat_data' job_queue',
     deactivate_monitoring chat_data job_queue chat_id
     = (chat_data', job_queue', true) /\
     monitoring_active chat_data' = false /\
     get_jobs_by_name job_queue' (monitor_name chat_id) = [] /\
     (wf_queue job_queue ->
      jobs job_queue'
      = filter (fun j => job_name j <> monitor_name chat_id) (jobs job_queue))) /\
  (forall acts c,
     let b := run Bot_new acts in
     length (get_jobs_by_name (bot_job_queue b) (monitor_name c))
     = if monitoring_active (chat_data_of b c) then 1 else 0).
Proof.
  unfold activate_monitoring, deactivate_monitoring.
  split; [| split; [| split; [| split; [| split]]]].
  - intros ->. reflexivity.
  - intros ->. eexists _, _. split; [reflexivity |].
    rewrite monitoring_active_insert. split; [reflexivity |].
    split; [reflexivity |]. split; [reflexivity |].
    intros Hnone. rewrite get_jobs_by_name_run_repeating, Hnone.
    rewrite decide_True by reflexivity. reflexivity.
  - intros ->. reflexivity.
  - reflexivity.
  - intros ->. cbn [negb]. eexists _, _. split; [reflexivity |].
    rewrite monitoring_active_insert. split; [reflexivity |]. split.
    + apply removal_loop_by_name.
    + intros Hwf. apply removal_loop_others. exact Hwf.
  - intros acts c. apply (bot_inv_run acts Bot_new bot_inv_new).
Qed.

Lemma activate_and_deactivate_witness :
  exists chat_data' job_queue',
    deactivate_monitoring {["monitoring" := PyBool true]} crowded_queue 7
    = (chat_data', job_queue', true) /\
    monitoring_active chat_data' = false /\
    get_jobs_by_name job_queue' (monitor_name 7) = [] /\
    jobs job_queue'
    = filter (fun j => job_name j <> monitor_name 7) (jobs crowded_queue).
Proof.
  refine (let H := activate_and_deactivate {["monitoring" := PyBool true]}
                     crowded_queue 7 300 in _).
  destruct H as (_ & _ & _ & _ & H & _).
  destruct H as (chat_data' & job_queue' & Hrun & Hflag & Hnone & Hothers);
    [reflexivity |].
  exists chat_data', job_queue'.
  split; [exact Hrun |]. split; [exact Hflag |]. split; [exact Hnone |].
  apply Hothers. split.
  - cbn. repeat (apply NoDup_cons; split;
                 [rewrite ?elem_of_cons, elem_of_nil; lia |]).
    apply NoDup_nil_2.
  - cbn. repeat (apply Forall_cons; split; [cbn; lia |]). apply Forall_nil_2.
Defined.

(** ** Monitoring updates *)

(** A monitoring update starts from a new monitor, so a report of the
    synchronisation carries no speed and no estimate. *)
Lemma sync_section_no_speed now net metrics is_healthy :
  sync_section now net = SyncReport metrics is_healthy ->
  m_sync_speed metrics = 0%Q /\ m_time_remaining metrics = None.
Proof.
  unfold sync_section. cbv zeta. rewrite get_sync_status_run.
  pose proof (get_network_height_run net (state_of SyncMonitor_new))
    as [Hself1 _].
  destruct (get_network_height net _) as [st1 [network_height | e]];
    cbn [fst snd] in *; [| destruct e; discriminate].
  pose proof (get_node_status_run net st1) as [Hself2 _].
  destruct (get_node_status net st1) as [st2 [node_status | e]];
    cbn [fst snd] in *; [| destruct e; discriminate].
  destruct (parse_height node_status) as [current_height | e];
    cbn [snd]; [| destruct e; discriminate].
  destruct (calculate_sync_metrics _ _ _ _ st2) as [st3 [m | e]] eqn:Hcalc;
    cbn [snd]; [| destruct e; discriminate].
  intros [= <- _].
  apply (first_poll now current_height network_height node_status st2).
  - rewrite Hself2, Hself1. reflexivity.
  - rewrite Hcalc. reflexivity.
Qed.

Lemma remove_first_subset x y l : x ∈ remove_first y l -> x ∈ l.
Proof.
  induction l as [|z l IH]; cbn [remove_first]; [intros H; exact H |].
  destruct (y =? z)%Z.
  - intros H. right. exact H.
  - intros [-> | H]%elem_of_cons; [left | right; apply IH; exact H].
Qed.

Lemma delivered_other b chat_id c r :
  c <> chat_id ->
  snd <$> filter (fun m => fst m = chat_id) (bot_outbox b ++ [(c, r)])
  = delivered b chat_id.
Proof.
  intros Hne. rewrite filter_app, fmap_app.
  rewrite (filter_none _ [(c, r)]); [apply app_nil_r |].
  apply Forall_singleton. exact Hne.
Qed.

(** A quiet chat stays quiet, and receives nothing, through every step that
    does not activate it. *)
Lemma quiet_step chat_id b a :
  quiet chat_id b ->
  ~ activates chat_id a ->
  quiet chat_id (step b a) /\
  delivered (step b a) chat_id = delivered b chat_id.
Proof.
  intros [Hflag Hfly] Hact.
  destruct a as [c i | c | c | c now net]; cbn [step activates] in *.
  - unfold handle_activate, activate_monitoring.
    destruct (monitoring_active (chat_data_of b c));
      (split; [split |]; [| exact Hfly | reflexivity]);
      rewrite (chat_data_of_insert_ne _ _ _ _ _ _ b chat_id Hact eq_refl);
      exact Hflag.
  - unfold handle_deactivate, deactivate_monitoring.
    destruct (decide (c = chat_id)) as [-> | Hne].
    + rewrite Hflag. cbn [negb]. split; [split |];
        [| exact Hfly | reflexivity].
      rewrite chat_data_of_insert_eq. exact Hflag.
    + destruct (negb (monitoring_active (chat_data_of b c)));
        (split; [split |]; [| exact Hfly | reflexivity]);
        rewrite (chat_data_of_insert_ne _ _ _ _ _ _ b chat_id Hne eq_refl);
        exact Hflag.
  - unfold send_monitoring_update_begin.
    destruct (decide (c = chat_id)) as [-> | Hne].
    + rewrite Hflag. cbn [negb]. split; [split; assumption | reflexivity].
    + destruct (negb (monitoring_active (chat_data_of b c)));
        [split; [split; assumption | reflexivity] |].
      split; [split; [exact Hflag |] | reflexivity].
      cbn [bot_in_flight]. rewrite elem_of_app, list_elem_of_singleton.
      intros [Hin | Heq]; [exact (Hfly Hin) | congruence].
  - unfold send_monitoring_update_resume.
    destruct (decide (c ∈ bot_in_flight b)) as [Hin | Hout];
      [| split; [split; assumption | reflexivity]].
    assert (c <> chat_id) as Hne by (intros ->; exact (Hfly Hin)).
    split; [split; [exact Hflag |] |].
    + cbn [bot_in_flight]. intros Hrem%remove_first_subset. exact (Hfly Hrem).
    + unfold delivered at 1. cbn [bot_outbox].
      apply delivered_other. exact Hne.
Qed.

Lemma quiet_run chat_id acts b :
  quiet chat_id b ->
  Forall (fun a => ~ activates chat_id a) acts ->
  quiet chat_id (run b acts) /\
  delivered (run b acts) chat_id = delivered b chat_id.
Proof.
  revert b. induction acts as [|a acts IH]; intros b Hquiet Hacts.
  - split; [exact Hquiet | reflexivity].
  - apply Forall_cons in Hacts as [Ha Hacts].
    destruct (quiet_step chat_id b a Hquiet Ha) as [Hquiet' Hsame].
    destruct (IH (step b a) Hquiet' Hacts) as [Hquiet'' Hsame'].
    change (run b (a :: acts)) with (run (step b a) acts).
    split; [exact Hquiet'' |]. rewrite Hsame'. exact Hsame.
Qed.






Lemma outbox_no_speed acts b :
  Forall no_speed (bot_outbox b) -> Forall no_speed (bot_outbox (run b acts)).
Proof.
  revert b. induction acts as [|a acts IH]; intros b Hb; [exact Hb |].
  change (run b (a :: acts)) with (run (step b a) acts). apply IH.
  destruct a as [c iv | c | c | c now net]; cbn [step].
  - unfold handle_activate.
    destruct (activate_monitoring (chat_data_of b c) (bot_job_queue b) c iv)
      as [[? ?] ?]. exact Hb.
  - unfold handle_deactivate.
    destruct (deactivate_monitoring (chat_data_of b c) (bot_job_queue b) c)
      as [[? ?] ?]. exact Hb.
  - unfold send_monitoring_update_begin. destruct (negb _); exact Hb.
  - unfold send_monitoring_update_resume.
    destruct (decide _); [| exact Hb]. cbn [bot_outbox].
    apply Forall_app. split; [exact Hb |]. apply Forall_singleton.
    intros metrics is_healthy. cbn [snd]. apply sync_section_no_speed.
Qed.

(** C10: every monitoring update computes its metrics on a new
    [SyncMonitor] ([last_height] 0, no [last_check_time], [sync_speed] 0),
    so whatever the event loop has run before, every synchronisation
    report delivered has [sync_speed] 0 and no [time_remaining]. *)
Theorem periodic_reports_have_no_speed acts chat_id i metrics is_healthy :
  delivered (run Bot_new acts) chat_id !! i
  = Some (SyncReport metrics is_healthy) ->
  (forall now net,
     sync_section now net
     = match snd (get_sync_status now net
                    {| self := {| last_height := 0;
                                  last_check_time := None;
                                  sync_speed := 0 |};
                       trace := [] |}) with
       | Ok (sync_metrics, healthy) => SyncReport sync_metrics healthy
       | Raise (ClientConnectorError detail) => NodeConnectionError detail
       | Raise e => ErrorCheckingNodeStatus e
       end) /\
  m_sync_speed metrics = 0%Q /\
  m_time_remaining metrics = None.
Proof.
  intros Hsent. split; [reflexivity |].
  pose proof (outbox_no_speed acts Bot_new (Forall_nil_2 _)) as Hall.
  unfold delivered in Hsent. rewrite list_lookup_fmap in Hsent.
  destruct (filter _ _ !! i) as [[c r]|] eqn:Hi; [| discriminate].
  cbn in Hsent. injection Hsent as ->.
  apply list_elem_of_lookup_2, list_elem_of_filter in Hi as [_ Hin].
  rewrite Forall_forall in Hall. exact (Hall _ Hin _ _ eq_refl).
Qed.

Lemma periodic_reports_have_no_speed_witness :
  delivered (run Bot_new two_polls) 1 !! 1
  = Some (SyncReport second_poll_metrics false) /\
  m_sync_speed second_poll_metrics = 0%Q /\
  m_time_remaining second_poll_metrics = None.
Proof.
  assert (delivered (run Bot_new two_polls) 1 !! 1
          = Some (SyncReport second_poll_metrics false)) as Hsent
    by (vm_compute; reflexivity).
  split; [exact Hsent |].
  apply (periodic_reports_have_no_speed two_polls 1 1 second_poll_metrics
           false Hsent).
Defined.




End MonitoringFacts.

(** * More facts about [utils/helpers.py] *)

Module MoreHelpersFacts.

Import Helpers HelpersFacts MoreHelpers.

(** ** [split_message] *)

(** What the loop appends to a text that is not empty is never empty. *)
Lemma split_loop_no_empty_part fuel max_length parts m out :
  split_loop fuel max_length parts m = Some out ->
  m <> [] ->
  exists rest, out = parts ++ rest /\ Forall (fun p => p <> []) rest.
Proof.
  revert parts m. induction fuel as [|fuel IH]; intros parts m;
    cbn [split_loop]; [discriminate |].
  destruct (Nat.ltb_spec max_length (length m)) as [Hlong | Hfits].
  - intros Hrun Hm.
    destruct (stuck max_length m) eqn:Hstuck.
    { pose proof Hstuck as [_ Hzero%Z.eqb_eq]%andb_true_iff.
      rewrite Hzero in Hrun. cbn [Z.to_nat] in Hrun. rewrite drop_0 in Hrun.
      rewrite (stuck_diverges _ _ Hstuck) in Hrun. discriminate. }
    pose proof (progress_shrinks max_length m Hlong Hstuck) as Hshrink.
    pose proof (split_index_le m max_length) as Hle.
    pose proof (split_index_nonneg m max_length) as Hge.
    rewrite length_drop in Hshrink.
    apply IH in Hrun as (rest & -> & Hrest).
    + exists (take (Z.to_nat (split_index m max_length)) m :: rest). split.
      * rewrite <- app_assoc. reflexivity.
      * apply Forall_cons. split; [| exact Hrest].
        intros Hnil%(f_equal length). rewrite length_take in Hnil.
        cbn [length] in Hnil. lia.
    + intros Hnil%(f_equal length). rewrite length_drop in Hnil.
      cbn [length] in Hnil. lia.
  - intros [= <-] Hm. exists [m]. split; [reflexivity |].
    apply Forall_singleton. exact Hm.
Qed.

(** X1: when [split_message] returns the parts of a text that is not
    empty, no part is empty. *)
Theorem split_message_no_empty_part message max_length parts :
  split_message message max_length = Some parts ->
  message <> [] ->
  Forall (fun p => p <> []) parts.
Proof.
  unfold split_message. intros Hrun Hm.
  apply split_loop_no_empty_part in Hrun as (rest & -> & Hrest);
    [exact Hrest | exact Hm].
Qed.

Lemma split_message_no_empty_part_witness :
  exists parts,
    split_message fifty_lines default_max_length = Some parts /\
    Forall (fun p => p <> []) parts.
Proof.
  eexists. split; [vm_compute; reflexivity |].
  apply (split_message_no_empty_part fifty_lines default_max_length).
  - vm_compute. reflexivity.
  - discriminate.
Defined.

Lemma dense_newlines_spec max_length m :
  dense_newlines max_length m = true <->
  forall k, k + (max_length - 1) <= length m ->
            newline ∈ take (max_length - 1) (drop k m).
Proof.
  unfold dense_newlines. rewrite forallb_forall. split.
  - intros Hall k Hk. specialize (Hall k). rewrite in_seq in Hall.
    destruct (Nat.leb_spec (k + (max_length - 1)) (length m)); [| lia].
    eapply bool_decide_eq_true_1. apply Hall. lia.
  - intros Hall k _. destruct (Nat.leb_spec (k + (max_length - 1)) (length m));
      [| reflexivity].
    apply bool_decide_eq_true_2, Hall. assumption.
Qed.

Lemma dense_newlines_drop max_length m i :
  dense_newlines max_length m = true ->
  dense_newlines max_length (drop i m) = true.
Proof.
  rewrite !dense_newlines_spec. intros Hall k Hk. rewrite drop_drop.
  assert (2 <= max_length) as Hmax.
  { destruct (Nat.le_gt_cases 2 max_length) as [H | H]; [exact H |].
    specialize (Hall 0). replace (max_length - 1) with 0 in Hall by lia.
    destruct (not_elem_of_nil newline). apply Hall. lia. }
  apply Hall. rewrite length_drop in Hk. lia.
Qed.

(** With newlines that dense, a text longer than the limit is cut at a
    newline that is not its first character. *)
Lemma dense_newlines_cut max_length m :
  dense_newlines max_length m = true ->
  max_length < length m ->
  exists i, 0 < i < max_length /\ m !! i = Some newline /\
            split_index m max_length = Z.of_nat i.
Proof.
  intros Hdense Hlong.
  pose proof (proj1 (dense_newlines_spec max_length m) Hdense 1) as Hwin.
  destruct (list_elem_of_lookup_1 _ _ (Hwin ltac:(lia))) as [j Hj].
  apply lookup_take_Some in Hj as [Hj Hlt]. rewrite lookup_drop in Hj.
  destruct (split_index_spec m max_length)
    as [[Hnone _] | (i & Hi & Hnl & Hlast & Heq)].
  - destruct Hnone. apply (list_elem_of_lookup_2 _ (1 + j)).
    apply lookup_take_Some. split; [exact Hj | lia].
  - exists i. split; [| split; assumption]. split; [| exact Hi].
    destruct i as [|i]; [| lia]. destruct Hlast.
    apply (list_elem_of_lookup_2 _ j). apply lookup_take_Some.
    split; [| lia]. rewrite lookup_drop. exact Hj.
Qed.

Lemma dense_newlines_no_stuck max_length m :
  dense_newlines max_length m = true -> no_stuck_suffix max_length m = true.
Proof.
  intros Hdense. apply no_stuck_suffix_spec. intros k. unfold stuck.
  destruct (Nat.ltb_spec max_length (length (drop k m))) as [Hlong | _];
    [| reflexivity].
  destruct (dense_newlines_cut max_length (drop k m)
              (dense_newlines_drop _ _ k Hdense) Hlong)
    as (i & Hi & _ & ->).
  cbn [andb]. apply Z.eqb_neq. lia.
Qed.

(** With newlines that dense, the first part begins as the text does and
    every later part begins with a newline. *)
Lemma dense_newlines_heads max_length m parts :
  split_spec max_length m parts ->
  dense_newlines max_length m = true ->
  exists p rest,
    parts = p :: rest /\ head p = head m /\
    Forall (fun q => head q = Some newline) rest.
Proof.
  induction 1 as [m Hfits | m i rest Hlong Hi Hnl Hlast _ IH
                 | m rest Hlong Hnone _ _]; intros Hdense.
  - exists m, []. split; [reflexivity |]. split; [reflexivity |].
    apply Forall_nil_2.
  - destruct (IH (dense_newlines_drop _ _ i Hdense))
      as (p' & rest' & -> & Hhead & Hrest).
    destruct (dense_newlines_cut max_length m Hdense Hlong)
      as (i' & Hi' & Hnl' & Hcut).
    assert (0 < i) as Hpos.
    { destruct i as [|i]; [| lia]. destruct Hlast.
      apply (list_elem_of_lookup_2 _ (i' - 1)). apply lookup_take_Some.
      split; [| lia]. rewrite lookup_drop.
      replace (1 + (i' - 1)) with i' by lia. exact Hnl'. }
    exists (take i m), (p' :: rest'). split; [reflexivity |]. split.
    + destruct m as [|c m]; [cbn in Hlong; lia |].
      destruct i; [lia | reflexivity].
    + apply Forall_cons. split; [| exact Hrest].
      rewrite Hhead. rewrite <- Hnl. clear.
      revert i. induction m as [|c m IHm]; intros [|i]; cbn; auto.
  - destruct (dense_newlines_cut max_length m Hdense Hlong)
      as (i' & Hi' & Hnl' & _).
    destruct Hnone. apply (list_elem_of_lookup_2 _ i').
    apply lookup_take_Some. split; [exact Hnl' | lia].
Qed.

(** X2: when every [max_length - 1] consecutive characters of a text hold a
    newline, [split_message] returns, every part but the first begins with
    a newline (every cut is at a newline), no part is longer than
    [max_length], and the parts concatenated are the text. *)
Theorem split_message_dense_newlines message max_length :
  dense_newlines max_length message = true ->
  exists parts,
    split_message message max_length = Some parts /\
    only_newline_cuts parts /\
    Forall (fun p => length p <= max_length) parts /\
    concat parts = message.
Proof.
  intros Hdense.
  destruct (split_loop_total max_length message
              (dense_newlines_no_stuck _ _ Hdense)
              (S (length message)) []) as [parts Hrun]; [lia |].
  exists parts. pose proof (split_message_sound _ _ _ Hrun) as Hspec.
  split; [exact Hrun |]. split; [| split].
  - destruct (dense_newlines_heads _ _ _ Hspec Hdense)
      as (p & rest & -> & _ & Hrest). exact Hrest.
  - eapply split_spec_lengths. exact Hspec.
  - eapply split_spec_concat. exact Hspec.
Qed.

Lemma split_message_dense_newlines_witness :
  exists parts,
    split_message short_lines 5 = Some parts /\
    only_newline_cuts parts /\
    Forall (fun p => length p <= 5) parts /\
    concat parts = short_lines.
Proof.
  apply (split_message_dense_newlines short_lines 5). vm_compute. reflexivity.
Defined.

End MoreHelpersFacts.

(** ** [safe_get] *)

Module SafeGetFacts.

Import MoreHelpers.

(** Where the path is found, the default plays no part. *)
Lemma safe_get_found data keys default other :
  safe_get data keys default <> default ->
  safe_get data keys other = safe_get data keys default.
Proof.
  revert data. induction keys as [|key keys IH]; intros data; cbn [safe_get];
    [reflexivity |].
  destruct (getitem data key) as [v | err]; [apply IH | congruence].
Qed.

(** X3: [safe_get] walks its keys one after the other: when the first keys
    lead to a value (the result is not the default handed in), the
    remaining keys are looked up in that value; when they lead nowhere (the
    result is whatever default is handed in), so does every longer path. *)
Theorem safe_get_app data keys1 keys2 default :
  (forall default',
     safe_get data keys1 default' <> default' ->
     safe_get data (keys1 ++ keys2) default
     = safe_get (safe_get data keys1 default') keys2 default) /\
  ((forall default', safe_get data keys1 default' = default') ->
   safe_get data (keys1 ++ keys2) default = default).
Proof.
  split.
  - revert data. induction keys1 as [|key keys1 IH]; intros data default';
      cbn [safe_get app]; [reflexivity |].
    destruct (getitem data key) as [v | err]; [apply IH | congruence].
  - revert data. induction keys1 as [|key keys1 IH]; intros data Hfail;
      cbn [safe_get app] in *.
    + pose proof (Hfail PNone) as H1. pose proof (Hfail (PBool true)) as H2.
      congruence.
    + destruct (getitem data key) as [v | err]; [apply IH; exact Hfail |].
      reflexivity.
Qed.

Lemma safe_get_app_witness :
  safe_get sample_status (["result"; "sync_info"] ++ ["latest_block_height"])
           not_available
  = safe_get (safe_get sample_status ["result"; "sync_info"] PNone)
             ["latest_block_height"] not_available.
Proof.
  refine (let H := safe_get_app sample_status ["result"; "sync_info"]
                     ["latest_block_height"] not_available in _).
  destruct H as [H _]. apply H. vm_compute. discriminate.
Defined.

(** X4: a value stored under a key is what [safe_get] finds there, also
    when it is [None]; the other keys of the dictionary are read as before;
    without the key, and in anything that is not a dictionary, the default
    is returned; and a result other than the default does not depend on the
    default. *)
Theorem safe_get_insert (d : gmap string pyobj) key v keys default :
  safe_get (PDict (<[key := v]> d)) (key :: keys) default
  = safe_get v keys default /\
  safe_get (PDict (<[key := PNone]> d)) [key] default = PNone /\
  (forall key',
     key <> key' ->
     safe_get (PDict (<[key := v]> d)) (key' :: keys) default
     = safe_get (PDict d) (key' :: keys) default) /\
  (d !! key = None -> safe_get (PDict d) (key :: keys) default = default) /\
  (forall data,
     (forall d', data <> PDict d') ->
     safe_get data (key :: keys) default = default) /\
  (forall data other,
     safe_get data keys default <> default ->
     safe_get data keys other = safe_get data keys default).
Proof.
  cbn [safe_get getitem]. rewrite !lookup_insert_eq.
  split; [reflexivity |]. split; [reflexivity |]. split; [| split; [| split]].
  - intros key' Hne. rewrite lookup_insert_ne by exact Hne. reflexivity.
  - intros ->. reflexivity.
  - intros data Hdata. destruct data as [| | | | |d']; try reflexivity.
    destruct (Hdata d' eq_refl).
  - intros data other. apply safe_get_found.
Qed.

Lemma safe_get_insert_witness :
  safe_get (PDict ∅) ["result"; "sync_info"] not_available = not_available.
Proof.
  refine (let H := safe_get_insert ∅ "result" PNone ["sync_info"]
                     not_available in _).
  destruct H as (_ & _ & _ & H & _). apply H. reflexivity.
Defined.

End SafeGetFacts.

(** * More facts about [MonitoringService] *)

Module MonitoringMoreFacts.

Import Helpers HelpersFacts MoreHelpers MoreHelpersFacts.
Import SyncService MonitoringService MonitoringFacts MonitoringMore.

Lemma flags_are_bool_step b a : flags_are_bool b -> flags_are_bool (step b a).
Proof.
  intros Hb. destruct a as [c i | c | c | c now net]; cbn [step].
  - unfold handle_activate, activate_monitoring.
    destruct (monitoring_active (chat_data_of b c)); intros c';
      destruct (decide (c = c')) as [<- | Hne];
      rewrite ?chat_data_of_insert_eq,
        ?(chat_data_of_insert_ne _ _ _ _ _ _ b c' Hne eq_refl); try apply Hb.
    rewrite lookup_insert_eq. exists true. reflexivity.
  - unfold handle_deactivate, deactivate_monitoring.
    destruct (negb (monitoring_active (chat_data_of b c))); intros c';
      destruct (decide (c = c')) as [<- | Hne];
      rewrite ?chat_data_of_insert_eq,
        ?(chat_data_of_insert_ne _ _ _ _ _ _ b c' Hne eq_refl); try apply Hb.
    rewrite lookup_insert_eq. exists false. reflexivity.
  - unfold send_monitoring_update_begin. destruct (negb _); exact Hb.
  - unfold send_monitoring_update_resume. destruct (decide _); exact Hb.
Qed.

Lemma flags_are_bool_run acts b : flags_are_bool b -> flags_are_bool (run b acts).
Proof.
  revert b. induction acts as [|a acts IH]; intros b Hb; [exact Hb |].
  apply IH, flags_are_bool_step. exact Hb.
Qed.

Lemma flags_are_bool_new : flags_are_bool Bot_new.
Proof. intros c. exists false. reflexivity. Qed.

(** X5: in every bot the event loop can reach, [get_monitoring_status]
    reads a boolean for [active], says Yes exactly when one job is
    scheduled under the chat's name and No exactly when none is, and
    reports the interval in whole minutes, rounded down. *)
Theorem monitoring_status_matches_jobs acts chat_id interval :
  let b := run Bot_new acts in
  let status := get_monitoring_status (chat_data_of b chat_id) interval in
  exists flag : bool,
    st_active status = PyBool flag /\
    st_status status = (if flag then "✅ Yes" else "❌ No") /\
    length (get_jobs_by_name (bot_job_queue b) (monitor_name chat_id))
    = (if flag then 1 else 0) /\
    (60 * st_interval_minutes status <= interval
     < 60 * st_interval_minutes status + 60)%Z.
Proof.
  cbv zeta.
  destruct (flags_are_bool_run acts Bot_new flags_are_bool_new chat_id)
    as [flag Hflag].
  pose proof (bot_inv_run acts Bot_new bot_inv_new) as [_ Hcount].
  specialize (Hcount chat_id). unfold monitoring_active in Hcount.
  unfold get_monitoring_status. cbn [st_active st_status st_interval_minutes].
  rewrite Hflag in *. cbn [truthy] in *. exists flag.
  split; [reflexivity |]. split; [reflexivity |]. split; [exact Hcount |].
  pose proof (Z.div_mod interval 60). pose proof (Z.mod_pos_bound interval 60).
  lia.
Qed.

(** X6: the end of a monitoring update sends a text of at most 4096
    characters as one message, so a text of 4001 to 4096 characters is
    not split; a longer text is sent in the parts of [split_message], each
    of at most 4000 characters and none empty.  The messages sent,
    concatenated, are the text; and nothing at all is sent exactly when
    the text is longer than 4096 characters and the loop of
    [split_message] never ends. *)
Theorem send_update_texts message :
  (forall texts,
     send_update message = Some texts ->
     concat texts = message /\
     Forall (fun t => length t <= telegram_limit) texts /\
     (length message <= telegram_limit -> texts = [message]) /\
     (telegram_limit < length message ->
      Forall (fun t => length t <= default_max_length /\ t <> []) texts)) /\
  (send_update message = None <->
   telegram_limit < length message /\
   forall fuel, split_loop fuel default_max_length [] message = None).
Proof.
  unfold send_update.
  destruct (Nat.leb_spec (length message) telegram_limit) as [Hshort | Hlong].
  - split.
    + intros texts [= <-]. split; [apply app_nil_r |]. split.
      * apply Forall_singleton. exact Hshort.
      * split; [reflexivity | lia].
    + split; [discriminate | lia].
  - split.
    + intros texts Hrun. pose proof (split_message_sound _ _ _ Hrun) as Hspec.
      pose proof (split_spec_lengths _ _ _ Hspec) as Hlen.
      assert (message <> []) as Hne.
      { intros ->. cbn in Hlong. lia. }
      assert (Forall (fun p => p <> []) texts) as Hfull.
      { pose proof Hrun as Hloop. unfold split_message in Hloop.
        apply split_loop_no_empty_part in Hloop as (rest & -> & Hrest);
          [exact Hrest | exact Hne]. }
      split; [eapply split_spec_concat; exact Hspec |]. split; [| split].
      * eapply Forall_impl; [exact Hlen |]. cbn beta. intros t Ht.
        unfold telegram_limit, default_max_length in *. lia.
      * lia.
      * intros _. apply Forall_and. split; assumption.
    + rewrite split_message_None. tauto.
Qed.

Lemma send_update_texts_witness :
  send_update line_of_4050 = Some [line_of_4050] /\
  send_update fifty_lines
  = Some [take 3999 fifty_lines; drop 3999 fifty_lines] /\
  concat [take 3999 fifty_lines; drop 3999 fifty_lines] = fifty_lines /\
  Forall (fun t => length t <= default_max_length /\ t <> [])
         [take 3999 fifty_lines; drop 3999 fifty_lines].
Proof.
  assert (send_update fifty_lines
          = Some [take 3999 fifty_lines; drop 3999 fifty_lines]) as Hrun
    by (vm_compute; reflexivity).
  split; [vm_compute; reflexivity |]. split; [exact Hrun |].
  destruct (proj1 (send_update_texts fifty_lines) _ Hrun)
    as (Hcat & _ & _ & Hparts).
  split; [exact Hcat |]. apply Hparts. apply Nat.ltb_lt. vm_compute.
  reflexivity.
Defined.

End MonitoringMoreFacts.

(** * Facts about [services/node_service.py] *)

Module NodeFacts.

Import SyncService SyncFacts NodeService.

Section WithTexts.

Variable cfg : Texts.

Lemma try_except_run {A} (body : M A) (handler : exn -> M A) st :
  try_except body handler st =
  match body st with
  | (st', Raise e) => handler e st'
  | (st', Ok a) => (st', Ok a)
  end.
Proof. unfold try_except. destruct (body st) as [st' [a | e]]; reflexivity. Qed.

Lemma requests_emit_request st e :
  requests (trace (fst (emit (Requested e) st))) = requests (trace st) ++ [e].
Proof. unfold requests. cbn. rewrite omap_app. reflexivity. Qed.

(** One call of [fetch_latest_block]: one request, the height of the
    endpoint if it has one, an [Exception] otherwise. *)
Lemma fetch_latest_block_run net e st :
  let after := fetch_latest_block cfg net e st in
  self (fst after) = self st /\
  requests (trace (fst after)) = requests (trace st) ++ [e] /\
  match endpoint_height (net e) with
  | Some h => snd after = Ok h
  | None => exists msg, snd after = Raise (Exception msg)
  end.
Proof.
  unfold fetch_latest_block, endpoint_height, json, parse_height, requests.
  run_m.
  destruct (net e) as [detail | status [data|]]; cbn [fst snd self trace];
    try destruct (status =? 200)%Z; try destruct (latest_block_height data);
    cbn [fst snd self trace]; rewrite ?omap_app; cbn [omap list_omap];
    eauto.
Qed.

(** The local node's height as [compare_block_heights] reads it. *)
Lemma local_height_run net st (handler : exn -> M Z) :
  (forall e st', exists msg, handler e st' = (st', Raise (Exception msg))) ->
  let after :=
    try_except (node_status ← fetch_node_status cfg net;
                lift (parse_height node_status)) handler st in
  self (fst after) = self st /\
  requests (trace (fst after)) = requests (trace st) ++ [LOCAL_NODE] /\
  match endpoint_height (net LOCAL_NODE) with
  | Some h => snd after = Ok h
  | None => exists msg, snd after = Raise (Exception msg)
  end.
Proof.
  intros Hhandler. cbv zeta. rewrite try_except_run, bind_run.
  unfold fetch_node_status, endpoint_height, json, parse_height, requests.
  run_m.
  destruct (net LOCAL_NODE) as [detail | status [data|]];
    cbn [fst snd self trace];
    try destruct (status =? 200)%Z; try destruct (latest_block_height data);
    cbn [fst snd self trace];
    try match goal with
        | |- context [handler ?e ?s] =>
            destruct (Hhandler e s) as [msg ->]; cbn [fst snd self trace]
        end;
    rewrite ?omap_app; cbn [omap list_omap]; eauto.
Qed.

(** The network height as [compare_block_heights] reads it: endpoint 1,
    and endpoint 2 only when endpoint 1 gives nothing. *)
Lemma network_height_run net st :
  let after :=
    try_except
      (fetch_latest_block cfg net RPC_ENDPOINT_1)
      (fun e =>
         emit LogError;;
         try_except
           (fetch_latest_block cfg net RPC_ENDPOINT_2)
           (fun e2 => raise (Exception (network_error_text cfg e e2)))) st in
  self (fst after) = self st /\
  requests (trace (fst after))
  = requests (trace st)
    ++ match endpoint_height (net RPC_ENDPOINT_1) with
       | Some _ => [RPC_ENDPOINT_1]
       | None => [RPC_ENDPOINT_1; RPC_ENDPOINT_2]
       end /\
  match network_height_of net with
  | Some h => snd after = Ok h
  | None => exists msg, snd after = Raise (Exception msg)
  end.
Proof.
  cbv zeta. rewrite try_except_run. unfold network_height_of.
  pose proof (fetch_latest_block_run net RPC_ENDPOINT_1 st) as (Hs1 & Ht1 & Hr1).
  destruct (fetch_latest_block cfg net RPC_ENDPOINT_1 st) as [st1 r1].
  cbn [fst snd] in *.
  destruct (endpoint_height (net RPC_ENDPOINT_1)) as [h1|].
  - subst r1. cbn [fst snd]. auto.
  - destruct Hr1 as [msg1 ->]. rewrite bind_run.
    change (emit LogError st1) with (log_error st1, @Ok unit tt).
    cbv iota beta. rewrite try_except_run.
    pose proof (fetch_latest_block_run net RPC_ENDPOINT_2 (log_error st1))
      as (Hs2 & Ht2 & Hr2).
    destruct (fetch_latest_block cfg net RPC_ENDPOINT_2 (log_error st1))
      as [st2 r2].
    cbn [fst snd] in *. rewrite requests_log_error, Ht1, <- app_assoc in Ht2.
    cbn [log_error self] in Hs2.
    destruct (endpoint_height (net RPC_ENDPOINT_2)) as [h2|].
    + subst r2. cbn [fst snd]. split; [congruence | auto].
    + destruct Hr2 as [msg2 ->]. unfold raise. cbn [fst snd].
      split; [congruence | eauto].
Qed.

Lemma requests_app_log tr : requests (tr ++ [LogError]) = requests tr.
Proof. unfold requests. rewrite omap_app. cbn. apply app_nil_r. Qed.

(** [compare_block_heights], outcome by outcome. *)
Lemma compare_block_heights_run net st :
  let after := compare_block_heights cfg net st in
  self (fst after) = self st /\
  requests (trace (fst after))
  = requests (trace st)
    ++ match endpoint_height (net RPC_ENDPOINT_1) with
       | Some _ => [RPC_ENDPOINT_1]
       | None => [RPC_ENDPOINT_1; RPC_ENDPOINT_2]
       end
    ++ match network_height_of net with
       | Some _ => [LOCAL_NODE]
       | None => []
       end /\
  match network_height_of net, endpoint_height (net LOCAL_NODE) with
  | Some h, Some l =>
      snd after = Ok (if (l <? h)%Z
                      then (alert_text l h, false)
                      else (synced_text l h, true))
  | _, _ => exists message, snd after = Ok (message, false)
  end.
Proof.
  cbv zeta. unfold compare_block_heights. rewrite try_except_run, bind_run.
  pose proof (network_height_run net st) as (Hs1 & Ht1 & Hr1).
  cbv zeta in Hs1, Ht1, Hr1.
  destruct (try_except (fetch_latest_block cfg net RPC_ENDPOINT_1) _ st)
    as [st1 r1].
  cbn [fst snd] in *.
  destruct (network_height_of net) as [h|].
  - subst r1. rewrite bind_run.
    pose proof (local_height_run net st1
                  (fun e => raise (Exception (local_error_text cfg e))))
      as (Hs2 & Ht2 & Hr2).
    { intros e st'. eexists. reflexivity. }
    cbv zeta in Hs2, Ht2, Hr2.
    destruct (try_except _ _ st1) as [st2 r2]. cbn [fst snd] in *.
    rewrite Ht1, <- app_assoc in Ht2.
    destruct (endpoint_height (net LOCAL_NODE)) as [l|].
    + subst r2. destruct (l <? h)%Z; run_m; cbn [fst snd];
        (split; [congruence | split; [exact Ht2 | reflexivity]]).
    + destruct Hr2 as [msg ->]. run_m. cbn [fst snd self trace].
      rewrite requests_app_log.
      split; [congruence | split; [exact Ht2 | eauto]].
  - destruct Hr1 as [msg ->]. run_m. cbn [fst snd self trace].
    rewrite requests_app_log, app_nil_r.
    split; [exact Hs1 | split; [exact Ht1 | eauto]].
Qed.

(** X7: [compare_block_heights] never raises.  It answers synced exactly
    when a reference endpoint (the first, or else the second) and the
    local node both give a height and the local one is not below; in every
    other case, failures included, it answers not synced.  It asks the
    second reference endpoint only when the first gives no height and the
    local node only when a reference height was obtained, each at most
    once. *)
Theorem compare_block_heights_never_raises net st :
  let after := compare_block_heights cfg net st in
  (exists message,
     snd after
     = Ok (message,
           match network_height_of net, endpoint_height (net LOCAL_NODE) with
           | Some h, Some l => negb (l <? h)%Z
           | _, _ => false
           end)) /\
  self (fst after) = self st /\
  requests (trace (fst after))
  = requests (trace st)
    ++ match endpoint_height (net RPC_ENDPOINT_1) with
       | Some _ => [RPC_ENDPOINT_1]
       | None => [RPC_ENDPOINT_1; RPC_ENDPOINT_2]
       end
    ++ match network_height_of net with
       | Some _ => [LOCAL_NODE]
       | None => []
       end.
Proof.
  cbv zeta. pose proof (compare_block_heights_run net st) as (Hs & Ht & Hr).
  cbv zeta in Hs, Ht, Hr. split; [| split; assumption].
  destruct (network_height_of net) as [h|]; [| exact Hr].
  destruct (endpoint_height (net LOCAL_NODE)) as [l|]; [| exact Hr].
  rewrite Hr. destruct (l <? h)%Z; eexists; reflexivity.
Qed.

Lemma get_node_status_ok net st doc :
  snd (get_node_status net st) = Ok doc ->
  net LOCAL_NODE = Response 200 (Some doc).
Proof.
  unfold get_node_status, json. run_m.
  destruct (net LOCAL_NODE) as [detail | status [data|]]; cbn [snd];
    try discriminate;
    destruct (Z.eqb_spec status 200) as [-> |]; cbn [negb snd];
    try discriminate.
  intros [= ->]. reflexivity.
Qed.

Lemma calculate_sync_metrics_heights now current_height network_height
    node_status st metrics :
  snd (calculate_sync_metrics now current_height network_height node_status st)
  = Ok metrics ->
  m_current_height metrics = current_height /\
  m_network_height metrics = network_height.
Proof.
  rewrite calculate_sync_metrics_run. cbv zeta.
  destruct (sync_progress current_height network_height) as [sp bb].
  cbn [snd].
  destruct (estimate_time_remaining _ bb) as [tr|]; [| discriminate].
  destruct (read_catching_up node_status) as [cu|]; [| discriminate].
  intros [= <-]. split; reflexivity.
Qed.

(** X8: the two ways of reading the synchronisation agree.  Whenever
    [SyncMonitor.get_sync_status] returns metrics, [compare_block_heights]
    in the same world answers synced exactly when [blocks_behind] is 0,
    with the text built from the same two heights, and the difference it
    prints when the node is behind is [blocks_behind]. *)
Theorem compare_agrees_with_sync_status now net st st' metrics is_healthy :
  snd (get_sync_status now net st) = Ok (metrics, is_healthy) ->
  snd (compare_block_heights cfg net st')
  = Ok (if (0 <? m_blocks_behind metrics)%Z
        then (alert_text (m_current_height metrics) (m_network_height metrics),
              false)
        else (synced_text (m_current_height metrics) (m_network_height metrics),
              true)) /\
  ((0 <? m_blocks_behind metrics)%Z = true ->
   (m_network_height metrics - m_current_height metrics)%Z
   = m_blocks_behind metrics).
Proof.
  rewrite get_sync_status_run.
  pose proof (get_network_height_run net st) as [_ Hheight].
  cbv zeta in Hheight.
  destruct (get_network_height net st) as [st1 [nh | e]]; [| discriminate].
  cbn [fst snd] in Hheight.
  assert (network_height_of net = Some nh) as Hnet.
  { unfold network_height_of.
    destruct (endpoint_height (net RPC_ENDPOINT_1)) as [h1|].
    - destruct Hheight as [[= ->] _]. reflexivity.
    - destruct Hheight as [Hr _].
      destruct (endpoint_height (net RPC_ENDPOINT_2)); congruence. }
  pose proof (get_node_status_ok net st1) as Hlocal.
  destruct (get_node_status net st1) as [st2 [doc | e]]; [| discriminate].
  specialize (Hlocal doc eq_refl).
  destruct (parse_height doc) as [h | e] eqn:Hparse; [| discriminate].
  assert (endpoint_height (net LOCAL_NODE) = Some h) as Hloc.
  { rewrite Hlocal. cbn. unfold parse_height in Hparse.
    destruct (latest_block_height doc); congruence. }
  pose proof (calculate_sync_metrics_returns now h nh doc st2) as Hret.
  pose proof (calculate_sync_metrics_heights now h nh doc st2) as Hheights.
  destruct (calculate_sync_metrics now h nh doc st2) as [st3 [m | e]];
    [| discriminate].
  intros [= -> _].
  destruct (Hret metrics eq_refl) as (_ & Hbb & _).
  destruct (Hheights metrics eq_refl) as [Hc Hn].
  pose proof (compare_block_heights_run net st') as (_ & _ & Hr).
  cbv zeta in Hr. rewrite Hnet, Hloc in Hr. rewrite Hr, Hc, Hn, Hbb.
  unfold sync_progress.
  destruct (Z.ltb_spec 0 (nh - h)) as [Hbehind | Hsync]; cbn [snd].
  - destruct (Z.ltb_spec h nh); [| lia].
    destruct (Z.ltb_spec 0 (nh - h)); [| lia]. split; reflexivity.
  - destruct (Z.ltb_spec h nh); [lia |]. cbn. split; [reflexivity | lia].
Qed.

End WithTexts.

Lemma compare_agrees_with_sync_status_witness :
  snd (compare_block_heights sample_texts (healthy_network 1000 2000)
                             (state_of SyncMonitor_new))
  = Ok (alert_text 1000 2000, false).
Proof.
  assert (snd (get_sync_status 0 (healthy_network 1000 2000)
                               (state_of SyncMonitor_new))
          = Ok (behind_metrics, false)) as Hstatus
    by (vm_compute; reflexivity).
  exact (proj1 (compare_agrees_with_sync_status sample_texts 0
                  (healthy_network 1000 2000) (state_of SyncMonitor_new)
                  (state_of SyncMonitor_new) behind_metrics false Hstatus)).
Defined.

End NodeFacts.

(** * Facts about [fetch_validator_info] *)

Module ValidatorInfoFacts.

Import MoreHelpers ValidatorInfo.

Lemma subscript_found cfg data key v :
  subscript cfg data key = inl v -> getitem data key = inl v.
Proof.
  unfold subscript. destruct (getitem data key) as [w | []]; congruence.
Qed.

Lemma subscript_raises cfg data key e :
  subscript cfg data key = inr e -> exists text, e = OtherError text.
Proof.
  unfold subscript. destruct (getitem data key) as [w | []];
    intros [= <-]; eauto.
Qed.

Lemma build_info_raises cfg status validators e :
  build_info cfg status validators = inr e -> exists text, e = OtherError text.
Proof.
  unfold build_info.
  repeat match goal with
         | |- context [subscript cfg ?d ?k] =>
             let H := fresh in
             destruct (subscript cfg d k) eqn:H;
             [| intros [= <-]; eapply subscript_raises; exact H]
         end.
  discriminate.
Qed.

(** X9: [fetch_validator_info] never returns [None]: it returns the four
    entries, read from two JSON bodies that hold them, or raises an
    exception whose text is the "Validator Info Error" text around the
    text of the cause.  A refused connection is reported by the friendly
    connection text inside that text.  The validators are requested
    exactly when the status request gave a JSON body, and the HTTP status
    codes play no part. *)
Theorem fetch_validator_info_outcome cfg (answer : target -> response) :
  let asked := fst (fetch_validator_info cfg answer) in
  let outcome := snd (fetch_validator_info cfg answer) in
  outcome <> inl None /\
  (forall e,
     outcome = inr e ->
     exists cause, e = OtherError (validator_error_text (OtherError cause))) /\
  (forall detail,
     answer StatusUrl = NoConnection detail ->
     outcome
     = inr (OtherError
              (validator_error_text
                 (OtherError (connection_text detail (url cfg StatusUrl)))))) /\
  (forall info,
     outcome = inl (Some info) ->
     exists s1 s2 status vals result,
       answer StatusUrl = Answer s1 (Some status) /\
       answer ValidatorsUrl = Answer s2 (Some vals) /\
       getitem status "result" = inl result /\
       getitem result "node_info" = inl (node_info info) /\
       getitem result "sync_info" = inl (sync_info info) /\
       getitem result "validator_info" = inl (validator_info info) /\
       getitem vals "result" = inl (validators info)) /\
  asked = match answer StatusUrl with
          | Answer _ (Some _) => [StatusUrl; ValidatorsUrl]
          | _ => [StatusUrl]
          end /\
  (forall other : target -> response,
     (forall t, match answer t, other t with
                | Answer _ body, Answer _ body' => body = body'
                | NoConnection d, NoConnection d' => d = d'
                | _, _ => False
                end) ->
     fetch_validator_info cfg other = fetch_validator_info cfg answer).
Proof.
  cbv zeta. unfold fetch_validator_info, get_json.
  split; [| split; [| split; [| split; [| split]]]].
  - destruct (answer StatusUrl) as [d1 | s1 [status|]]; cbn; try discriminate.
    destruct (answer ValidatorsUrl) as [d2 | s2 [vals|]]; cbn;
      try discriminate.
    destruct (build_info cfg status vals) as [info | e] eqn:Hbuild;
      cbn; [discriminate |].
    destruct (build_info_raises _ _ _ _ Hbuild) as [text ->]. discriminate.
  - intros e.
    destruct (answer StatusUrl) as [d1 | s1 [status|]]; cbn;
      try (intros [= <-]; eauto; fail).
    destruct (answer ValidatorsUrl) as [d2 | s2 [vals|]]; cbn;
      try (intros [= <-]; eauto; fail).
    destruct (build_info cfg status vals) as [info | e'] eqn:Hbuild;
      cbn; [discriminate |].
    destruct (build_info_raises _ _ _ _ Hbuild) as [text ->].
    intros [= <-]. eauto.
  - intros detail ->. reflexivity.
  - intros info.
    destruct (answer StatusUrl) as [d1 | s1 [status|]]; cbn;
      try discriminate.
    destruct (answer ValidatorsUrl) as [d2 | s2 [vals|]]; cbn;
      try discriminate.
    unfold build_info.
    destruct (subscript cfg status "result") as [result | e] eqn:H1;
      [| destruct e; discriminate].
    destruct (subscript cfg result "node_info") as [ni | e] eqn:H2;
      [| destruct e; discriminate].
    destruct (subscript cfg result "sync_info") as [si | e] eqn:H3;
      [| destruct e; discriminate].
    destruct (subscript cfg result "validator_info") as [vi | e] eqn:H4;
      [| destruct e; discriminate].
    destruct (subscript cfg vals "result") as [vs | e] eqn:H5;
      [| destruct e; discriminate].
    intros [= <-]. exists s1, s2, status, vals, result. cbn.
    repeat split; try reflexivity; eapply subscript_found; eassumption.
  - destruct (answer StatusUrl) as [d1 | s1 [status|]]; cbn;
      try reflexivity.
    destruct (answer ValidatorsUrl) as [d2 | s2 [vals|]]; reflexivity.
  - intros other Hsame.
    pose proof (Hsame StatusUrl) as H1. pose proof (Hsame ValidatorsUrl) as H2.
    destruct (answer StatusUrl) as [d1 | s1 b1];
      destruct (other StatusUrl) as [d1' | s1' b1']; try contradiction;
      subst; [reflexivity |].
    destruct b1' as [status|]; [| reflexivity].
    destruct (answer ValidatorsUrl) as [d2 | s2 b2];
      destruct (other ValidatorsUrl) as [d2' | s2' b2']; try contradiction;
      subst; reflexivity.
Qed.

Lemma fetch_validator_info_outcome_witness :
  snd (fetch_validator_info sample_texts sample_answers)
  = inl (Some sample_info) /\
  exists s1 s2 status vals result,
    sample_answers StatusUrl = Answer s1 (Some status) /\
    sample_answers ValidatorsUrl = Answer s2 (Some vals) /\
    getitem status "result" = inl result /\
    getitem result "node_info" = inl (node_info sample_info) /\
    getitem result "sync_info" = inl (sync_info sample_info) /\
    getitem result "validator_info" = inl (validator_info sample_info) /\
    getitem vals "result" = inl (validators sample_info).
Proof.
  assert (Hrun : snd (fetch_validator_info sample_texts sample_answers)
                 = inl (Some sample_info)) by (vm_compute; reflexivity).
  split; [exact Hrun |].
  exact (proj1 (proj2 (proj2 (proj2
           (fetch_validator_info_outcome sample_texts sample_answers))))
           sample_info Hrun).
Defined.

End ValidatorInfoFacts.

(** * Facts about the dispatch of callback queries *)

Module DispatchFacts.

Import Menus Dispatch.

Lemma callback_entries_NoDup : NoDup callback_entries.*1.
Proof. apply (bool_decide_unpack _). vm_compute. exact I. Qed.

Lemma callback_handlers_entry data h :
  callback_handlers !! data = Some h <-> (data, h) ∈ callback_entries.
Proof.
  unfold callback_handlers. symmetry.
  apply elem_of_list_to_map, callback_entries_NoDup.
Qed.

(** No key of the dictionary begins with [log_filter_]. *)
Lemma no_log_filter_key rest :
  callback_handlers !! ("log_filter_" +:+ rest) = None.
Proof.
  apply not_elem_of_list_to_map_1. cbn.
  rewrite !not_elem_of_cons. repeat split; try discriminate.
  apply not_elem_of_nil.
Qed.

Lemma handler_log_filter_key data :
  callback_handlers !! data = Some HandleLogFilter -> data = "log_filter".
Proof.
  rewrite callback_handlers_entry. unfold callback_entries.
  rewrite !elem_of_cons, elem_of_nil. intros H.
  repeat (destruct H as [H | H]; [congruence |]). contradiction.
Qed.

Lemma handler_activate_key data :
  callback_handlers !! data = Some ActivateMonitoring ->
  data = "monitor_activate".
Proof.
  rewrite callback_handlers_entry. unfold callback_entries.
  rewrite !elem_of_cons, elem_of_nil. intros H.
  repeat (destruct H as [H | H]; [congruence |]). contradiction.
Qed.

(** X10: every button of the keyboards without an argument has an entry in
    [callback_handlers], and every entry but [log_filter] is on one of
    them; of the keyboard [get_log_filter_options(service)], for every
    service, only the two "Back" buttons have one: pressing a level button
    changes nothing and calls no handler, whoever presses it.  The entry
    [log_filter] is the only one that leads to [handle_log_filter], and on
    that callback data [handle_log_filter] raises [ValueError]. *)
Theorem log_filter_buttons_reach_no_handler
    (ADMIN_ID MONITORING_INTERVAL : Z) (service : string) :
  Forall (fun data => is_Some (callback_handlers !! data))
         (mjoin (data_of <$> fixed_menus)) /\
  Forall (fun entry => entry.1 ∈ mjoin (data_of <$> fixed_menus) \/
                       entry.1 = "log_filter")
         callback_entries /\
  ((callback_handlers !!.) <$> data_of (get_log_filter_options service))
  = [None; None; None; None; Some ShowLogOptions; Some HandleStart] /\
  (forall update b,
     callback_query_data update
       ∈ take 4 (data_of (get_log_filter_options service)) ->
     on_callback_query ADMIN_ID MONITORING_INTERVAL update b
     = (b, NoHandler)) /\
  (forall data,
     callback_handlers !! data = Some HandleLogFilter ->
     data = "log_filter" /\
     handle_log_filter data = inr SyncService.ValueError).
Proof.
  split; [| split; [| split; [| split]]].
  - apply (bool_decide_unpack _). vm_compute. exact I.
  - apply (bool_decide_unpack _). vm_compute. exact I.
  - cbn. rewrite !no_log_filter_key. reflexivity.
  - intros update b Hin. unfold on_callback_query.
    cbn in Hin. rewrite !elem_of_cons, elem_of_nil in Hin.
    destruct Hin as [-> | [-> | [-> | [-> | []]]]];
      rewrite no_log_filter_key; reflexivity.
  - intros data Hkey. apply handler_log_filter_key in Hkey as ->.
    split; reflexivity.
Qed.


Lemma log_filter_buttons_reach_no_handler_witness :
  on_callback_query 1 300
    {| effective_user_id := 1; effective_chat_id := 7;
       callback_query_data := "log_filter_story_ERROR" |}
    MonitoringService.Bot_new
  = (MonitoringService.Bot_new, NoHandler).
Proof.
  apply (proj1 (proj2 (proj2 (proj2
           (log_filter_buttons_reach_no_handler 1 300 "story"))))).
  apply (bool_decide_unpack _). vm_compute. exact I.
Defined.

(** ** [str.split] *)

Lemma split_nonempty sep s : exists piece pieces, split sep s = piece :: pieces.
Proof.
  destruct s as [|c rest]; cbn [split]; [eauto |].
  destruct (Ascii.eqb c sep); [eauto |].
  destruct (split sep rest); eauto.
Qed.

Lemma append_nil b : EmptyString +:+ b = b.
Proof. reflexivity. Qed.

Lemma append_cons c a b : String c a +:+ b = String c (a +:+ b).
Proof. reflexivity. Qed.

Lemma split_app sep a b :
  split sep (a +:+ String sep b) = split sep a ++ split sep b.
Proof.
  induction a as [|c a IH]; rewrite ?append_nil, ?append_cons; cbn [split].
  - rewrite Ascii.eqb_refl. reflexivity.
  - rewrite IH. destruct (Ascii.eqb c sep); [reflexivity |].
    destruct (split_nonempty sep a) as (piece & pieces & ->). reflexivity.
Qed.

Lemma split_no_sep sep s : count sep s = 0 -> split sep s = [s].
Proof.
  induction s as [|c rest IH]; cbn [count split]; [reflexivity |].
  destruct (Ascii.eqb c sep); [discriminate |].
  intros Hcount. rewrite IH by exact Hcount. reflexivity.
Qed.

Lemma split_length sep s : length (split sep s) = S (count sep s).
Proof.
  induction s as [|c rest IH]; cbn [count split]; [reflexivity |].
  destruct (Ascii.eqb c sep); cbn [length]; [rewrite IH; reflexivity |].
  destruct (split_nonempty sep rest) as (piece & pieces & Heq).
  rewrite Heq in IH |- *. exact IH.
Qed.

(** A string with one separator is its two pieces around the separator. *)
Lemma split_two sep s a b :
  split sep s = [a; b] ->
  s = a +:+ String sep b /\ count sep a = 0 /\ count sep b = 0.
Proof.
  revert a. induction s as [|c rest IH]; intros a; cbn [split];
    [discriminate |].
  destruct (Ascii.eqb_spec c sep) as [-> | Hne].
  - intros [= <- Hrest].
    assert (count sep rest = 0) as Hcount.
    { pose proof (split_length sep rest) as Hlen. rewrite Hrest in Hlen.
      cbn in Hlen. lia. }
    rewrite (split_no_sep _ _ Hcount) in Hrest. injection Hrest as <-.
    split; [reflexivity | split; [reflexivity | exact Hcount]].
  - destruct (split_nonempty sep rest) as (piece & pieces & Heq).
    rewrite Heq. intros [= <- ->].
    destruct (IH piece Heq) as (-> & Ha & Hb).
    split; [reflexivity | split; [| exact Hb]]. cbn [count].
    destruct (Ascii.eqb_spec c sep); [contradiction | exact Ha].
Qed.

Lemma append_length a b :
  String.length (a +:+ b) = String.length a + String.length b.
Proof.
  induction a as [|x a IH]; rewrite ?append_nil, ?append_cons;
    [reflexivity | cbn [String.length]; rewrite IH; reflexivity].
Qed.

Lemma append_String a c b : a +:+ String c b = (a +:+ String c EmptyString) +:+ b.
Proof.
  induction a as [|x a IH]; rewrite ?append_nil, ?append_cons;
    [reflexivity | rewrite IH; reflexivity].
Qed.

(** X11: on the callback data of a level button of
    [get_log_filter_options(service)], [handle_log_filter] never hands the
    button's service to [view_logs]: it raises [ValueError] unless the
    service name holds exactly one underscore, and then it takes the part
    after that underscore for the service.  For a service name without an
    underscore, such as [story] and [story-geth], it always raises. *)
Theorem handle_log_filter_loses_service (service level : string) :
  count underscore level = 0 ->
  let data := "log_filter_" +:+ service +:+ String underscore level in
  match handle_log_filter data with
  | inr e => e = SyncService.ValueError /\ count underscore service <> 1
  | inl (found, wanted) =>
      exists before,
        service = before +:+ String underscore found /\
        count underscore before = 0 /\
        count underscore found = 0 /\
        found <> service /\
        wanted = (if String.eqb level "all" then None else Some level)
  end /\
  (count underscore service = 0 ->
   handle_log_filter data = inr SyncService.ValueError) /\
  (level ∈ ["all"; "ERROR"; "WARNING"; "INFO"] ->
   data ∈ take 4 (data_of (get_log_filter_options service))).
Proof.
  intros Hlevel data.
  assert (split underscore data
          = ["log"; "filter"] ++ split underscore service ++ [level])
    as Hsplit.
  { subst data.
    change ("log_filter_" +:+ service +:+ String underscore level)
      with ("log" +:+ String underscore
              ("filter" +:+ String underscore
                 (service +:+ String underscore level))).
    rewrite !split_app, (split_no_sep _ level Hlevel). reflexivity. }
  assert (drop 2 (split underscore data) = split underscore service ++ [level])
    as Hdrop by (rewrite Hsplit; reflexivity).
  split; [| split].
  - unfold handle_log_filter. rewrite Hdrop.
    pose proof (split_length underscore service) as Hlen.
    destruct (split underscore service) as [|p1 [|p2 [|p3 ps]]] eqn:Hparts;
      cbn [app]; cbn [length] in Hlen.
    + discriminate.
    + split; [reflexivity | lia].
    + apply split_two in Hparts as (-> & Hbefore & Hfound).
      exists p1. repeat split; try assumption.
      intros Heq. apply (f_equal String.length) in Heq.
      rewrite append_length in Heq. cbn in Heq. lia.
    + destruct ps; cbn [app]; (split; [reflexivity | lia]).
  - intros Hservice. unfold handle_log_filter.
    rewrite Hdrop, (split_no_sep _ service Hservice). reflexivity.
  - intros Hin. subst data. cbn [get_log_filter_options data_of concat fmap
                                 list_fmap app callback_data Button take].
    rewrite !elem_of_cons, elem_of_nil in Hin. rewrite !elem_of_cons.
    destruct Hin as [-> | [-> | [-> | [-> | []]]]]; cbn;
      rewrite (append_String service);
      [left | right; left | right; right; left | right; right; right; left];
      rewrite <- (append_String service); reflexivity.
Qed.

Lemma handle_log_filter_loses_service_witness :
  handle_log_filter "log_filter_story-geth_ERROR" = inr SyncService.ValueError.
Proof.
  exact (proj1 (proj2 (handle_log_filter_loses_service "story-geth" "ERROR"
                         eq_refl))
               eq_refl).
Defined.


(** ** Who can start the monitoring *)

Section WithConfig.

Variables ADMIN_ID MONITORING_INTERVAL : Z.

Lemma handle_event_step b ev :
  handle_event ADMIN_ID MONITORING_INTERVAL b ev
  = match action_of ADMIN_ID MONITORING_INTERVAL ev with
    | Some a => MonitoringService.step b a
    | None => b
    end.
Proof.
  destruct ev as [update | chat_id | chat_id now net];
    [| reflexivity | reflexivity].
  unfold handle_event, action_of, on_callback_query, admin_only.
  destruct (callback_handlers !! callback_query_data update) as [h|];
    destruct (bool_decide (effective_user_id update <> ADMIN_ID));
    try reflexivity.
  destruct h; reflexivity.
Qed.

Lemma run_events_run evs b :
  run_events ADMIN_ID MONITORING_INTERVAL b evs
  = MonitoringService.run b (omap (action_of ADMIN_ID MONITORING_INTERVAL) evs).
Proof.
  revert b. induction evs as [|ev evs IH]; intros b; [reflexivity |].
  unfold run_events in *. cbn [foldl omap list_omap].
  rewrite IH, handle_event_step.
  destruct (action_of ADMIN_ID MONITORING_INTERVAL ev); reflexivity.
Qed.

Lemma action_of_activates chat_id ev a :
  action_of ADMIN_ID MONITORING_INTERVAL ev = Some a ->
  MonitoringService.activates chat_id a ->
  admin_activates ADMIN_ID chat_id ev.
Proof.
  destruct ev as [update | c | c now net]; cbn [action_of admin_activates];
    [| intros [= <-] [] | intros [= <-] []].
  destruct (bool_decide_reflect (effective_user_id update <> ADMIN_ID))
    as [Hother | Hadmin]; [discriminate |].
  destruct (callback_handlers !! callback_query_data update) as [h|] eqn:Hkey;
    [| discriminate].
  destruct h; try discriminate.
  - intros [= <-] Hchat. cbn in Hchat.
    apply handler_activate_key in Hkey.
    destruct (decide (effective_user_id update = ADMIN_ID)); [auto | tauto].
  - intros [= <-] [].
Qed.

(** X12: whatever callback queries arrive, from whomever, and whenever the
    jobs run, as long as the administrator has not pressed "Activate
    Monitoring" in a chat, that chat's flag is down, no job is scheduled
    under its name and no report has been sent to it; a query from anyone
    else changes neither the chats' data nor the job queue. *)
Theorem monitoring_starts_with_the_admin (evs : list event) (chat_id : Z) :
  Forall (fun ev => ~ admin_activates ADMIN_ID chat_id ev) evs ->
  let b := run_events ADMIN_ID MONITORING_INTERVAL
                      MonitoringService.Bot_new evs in
  MonitoringService.monitoring_active
    (MonitoringService.chat_data_of b chat_id) = false /\
  MonitoringService.get_jobs_by_name
    (MonitoringService.bot_job_queue b)
    (MonitoringService.monitor_name chat_id) = [] /\
  MonitoringService.delivered b chat_id = [] /\
  (forall update b',
     effective_user_id update <> ADMIN_ID ->
     handle_event ADMIN_ID MONITORING_INTERVAL b' (CallbackQuery update) = b' /\
     snd (on_callback_query ADMIN_ID MONITORING_INTERVAL update b')
     = match callback_handlers !! callback_query_data update with
       | Some _ => NotAuthorized
       | None => NoHandler
       end).
Proof.
  intros Hnot b. subst b. rewrite run_events_run.
  set (acts := omap (action_of ADMIN_ID MONITORING_INTERVAL) evs).
  assert (Forall (fun a => ~ MonitoringService.activates chat_id a) acts)
    as Hacts.
  { subst acts. apply Forall_forall. intros a Hin.
    apply list_elem_of_omap in Hin as (ev & Hev & Ha).
    rewrite Forall_forall in Hnot. intros Hact.
    apply (Hnot ev Hev). exact (action_of_activates _ _ _ Ha Hact). }
  assert (MonitoringService.quiet chat_id MonitoringService.Bot_new) as Hquiet.
  { split; [reflexivity | apply not_elem_of_nil]. }
  destruct (MonitoringFacts.quiet_run chat_id acts _ Hquiet Hacts)
    as [[Hflag _] Hsent].
  pose proof (MonitoringFacts.bot_inv_run acts _ MonitoringFacts.bot_inv_new)
    as [_ Hjobs].
  specialize (Hjobs chat_id). rewrite Hflag in Hjobs.
  split; [exact Hflag |]. split; [| split; [exact Hsent |]].
  - apply length_zero_iff_nil. exact Hjobs.
  - intros update b' Hother. cbn [handle_event].
    unfold on_callback_query, admin_only.
    destruct (callback_handlers !! callback_query_data update);
      [| split; reflexivity].
    rewrite (bool_decide_eq_true_2 _ Hother). split; reflexivity.
Qed.

End WithConfig.

Lemma monitoring_starts_with_the_admin_witness :
  MonitoringService.delivered
    (run_events 1 300 MonitoringService.Bot_new sample_events) 7 = [] /\
  length (MonitoringService.delivered
            (run_events 1 300 MonitoringService.Bot_new sample_events) 8) = 1.
Proof.
  split; [| vm_compute; reflexivity].
  refine (proj1 (proj2 (proj2
            (monitoring_starts_with_the_admin 1 300 sample_events 7 _)))).
  unfold sample_events. repeat apply Forall_cons_2; try apply Forall_nil_2;
    cbn; intros H; try exact H; destruct H as (? & ? & ?); discriminate.
Defined.

End DispatchFacts.

(** * Facts about the sending part of [handle_status] *)

Module StatusHandlerFacts.

Import Helpers Menus StatusHandler.

Lemma sent_text_imap (f : nat -> method) (g : nat -> option InlineKeyboardMarkup)
    (l : list str) :
  sent_text <$> imap (fun idx msg => {| via := f idx; sent_text := msg;
                                        reply_markup := g idx |}) l
  = l.
Proof.
  revert f g. induction l as [|x l IH]; intros f g; [reflexivity |].
  cbn [imap fmap list_fmap sent_text]. f_equal.
  apply (IH (f ∘ S) (g ∘ S)).
Qed.

(** A text longer than the limit comes back in two parts or more. *)
Lemma split_message_two_parts message max_length parts :
  split_message message max_length = Some parts ->
  max_length < length message ->
  2 <= length parts.
Proof.
  intros Hrun Hlong. apply HelpersFacts.split_message_sound in Hrun.
  pose proof (HelpersFacts.split_spec_concat _ _ _ Hrun) as Hconcat.
  pose proof (HelpersFacts.split_spec_lengths _ _ _ Hrun) as Hlen.
  destruct parts as [|p [|q parts]]; cbn [length]; [| | lia].
  - subst message. cbn in Hlong. lia.
  - cbn in Hconcat. rewrite app_nil_r in Hconcat. subst p.
    apply Forall_cons in Hlen as [Hp _]. lia.
Qed.

(** X13: when [handle_status] has sent the status text, the texts sent
    make up the text, in order; the first goes by editing the menu message
    (or as a reply, after a command) and every other one as a new message;
    the "Back to Main Menu" keyboard is on the last message and on no
    other.  A text of more than 4096 characters goes in two messages or
    more, of at most 4000 characters each, so that the edited menu
    message is left without a keyboard.  Nothing is sent exactly when the
    text has more than 4096 characters and [split_message] does not
    return. *)
Theorem status_keyboard_on_last_message (from_callback : bool) (message : str) :
  let first := if from_callback then EditMessageText else ReplyText in
  (forall sends,
     send_status from_callback message = Some sends ->
     concat (sent_text <$> sends) = message /\
     (exists s rest,
        sends = s :: rest /\ via s = first /\
        Forall (fun s => via s = SendMessage) rest) /\
     (exists front s,
        sends = front ++ [s] /\
        reply_markup s = Some get_back_to_main_menu /\
        Forall (fun s => reply_markup s = None) front) /\
     (4096 < length message ->
      2 <= length sends /\
      Forall (fun s => length (sent_text s) <= 4000) sends /\
      (exists s, head sends = Some s /\ reply_markup s = None))) /\
  (send_status from_callback message = None <->
   4096 < length message /\
   split_message message default_max_length = None).
Proof.
  intros first. unfold send_status. fold first.
  destruct (Nat.leb_spec (length message) 4096) as [Hfits | Hlong].
  - split; [| split; [discriminate | lia]].
    intros sends [= <-]. cbn [fmap list_fmap concat sent_text].
    rewrite app_nil_r. split; [reflexivity |]. split; [| split; [| lia]].
    + eexists _, []. repeat split. apply Forall_nil_2.
    + eexists [], _. repeat split. apply Forall_nil_2.
  - destruct (split_message message default_max_length) as [parts|] eqn:Hrun;
      cbn [mbind option_bind]; [| split; [discriminate | tauto]].
    split; [| split; [discriminate | intros [_ [=]]]].
    intros sends [= <-].
    pose proof (HelpersFacts.split_message_sound _ _ _ Hrun) as Hspec.
    assert (2 <= length parts) as Htwo.
    { apply (split_message_two_parts _ _ _ Hrun).
      unfold default_max_length. lia. }
    split; [| split; [| split]].
    + rewrite sent_text_imap.
      exact (HelpersFacts.split_spec_concat _ _ _ Hspec).
    + destruct parts as [|p rest]; [cbn in Htwo; lia |].
      cbn [imap]. eexists _, _. split; [reflexivity |].
      split; [reflexivity |].
      apply Forall_forall. intros s Hin.
      apply elem_of_lookup_imap in Hin as (i & msg & -> & _). reflexivity.
    + assert (parts <> []) as Hne by (intros ->; cbn in Htwo; lia).
      destruct (exists_last Hne) as (front & p & ->).
      rewrite imap_app. cbn [imap].
      eexists _, _. split; [reflexivity |]. split.
      * cbn [reply_markup]. rewrite length_app. cbn [length].
        replace (length front + 0 =? length front + 1 - 1) with true
          by (symmetry; apply Nat.eqb_eq; lia).
        reflexivity.
      * apply Forall_forall. intros s Hin.
        apply elem_of_lookup_imap in Hin as (i & msg & -> & Hi).
        apply lookup_lt_Some in Hi. cbn [reply_markup].
        rewrite length_app. cbn [length].
        replace (i =? length front + 1 - 1) with false
          by (symmetry; apply Nat.eqb_neq; lia).
        reflexivity.
    + intros _. rewrite length_imap. split; [exact Htwo |]. split.
      * apply Forall_forall. intros s Hin.
        apply elem_of_lookup_imap in Hin as (i & msg & -> & Hi).
        cbn [sent_text].
        pose proof (HelpersFacts.split_spec_lengths _ _ _ Hspec) as Hlen.
        rewrite Forall_forall in Hlen.
        apply (Hlen msg). eapply list_elem_of_lookup_2. exact Hi.
      * destruct parts as [|p [|q rest]]; cbn in Htwo; try lia.
        eexists. split; reflexivity.
Qed.

Lemma status_keyboard_on_last_message_witness :
  let s1 := {| via := EditMessageText; sent_text := take 3999 fifty_lines;
               reply_markup := None |} in
  let s2 := {| via := SendMessage; sent_text := drop 3999 fifty_lines;
               reply_markup := Some get_back_to_main_menu |} in
  send_status true fifty_lines = Some [s1; s2] /\
  2 <= length [s1; s2] /\
  Forall (fun s => length (sent_text s) <= 4000) [s1; s2] /\
  (exists s, head [s1; s2] = Some s /\ reply_markup s = None).
Proof.
  intros s1 s2.
  assert (send_status true fifty_lines = Some [s1; s2]) as Hrun
    by (vm_compute; reflexivity).
  assert (4096 < length fifty_lines) as Hlong
    by (apply Nat.ltb_lt; vm_compute; reflexivity).
  split; [exact Hrun |].
  exact (proj2 (proj2 (proj2
           (proj1 (status_keyboard_on_last_message true fifty_lines)
                  [s1; s2] Hrun)))
           Hlong).
Defined.

End StatusHandlerFacts.

(** * Facts about [format_size] *)

Module SystemHandlerFacts.

Import SyncService SystemHandler.

Local Open Scope Q_scope.

Lemma round_half_even_comp x y : x == y -> round_half_even x = round_half_even y.
Proof.
  intros Heq. unfold round_half_even.
  rewrite (Qfloor_comp _ _ Heq).
  assert (x - inject_Z (Qfloor y) == y - inject_Z (Qfloor y)) as Hsub
    by (rewrite Heq; reflexivity).
  rewrite (Qcompare_comp _ _ Hsub (1 # 2) (1 # 2) (Qeq_refl _)). reflexivity.
Qed.

Lemma format_2f_comp x y : x == y -> format_2f x = format_2f y.
Proof.
  intros Heq. unfold format_2f, Qltb.
  rewrite (Qcompare_comp _ _ Heq 0 0 (Qeq_refl _)).
  destruct (y ?= 0).
  - rewrite (round_half_even_comp (x * 100) (y * 100))
      by (rewrite Heq; reflexivity).
    reflexivity.
  - rewrite (round_half_even_comp (- x * 100) (- y * 100))
      by (rewrite Heq; reflexivity).
    reflexivity.
  - rewrite (round_half_even_comp (x * 100) (y * 100))
      by (rewrite Heq; reflexivity).
    reflexivity.
Qed.

Lemma Qltb_1024 (n : Z) (p : positive) :
  Qltb (n # p) 1024 = (n <? 1024 * Z.pos p)%Z.
Proof.
  unfold Qltb, Qcompare. cbn [Qnum Qden].
  rewrite Z.mul_1_r. unfold Z.ltb.
  destruct (n ?= 1024 * Z.pos p)%Z; reflexivity.
Qed.

Lemma div_1024 (n : Z) (p : positive) : (n # p) / 1024 == n # (1024 * p).
Proof.
  unfold Qeq, Qdiv, Qmult, Qinv. cbn [Qnum Qden]. lia.
Qed.

Lemma format_size_loop_comp us x y :
  x == y -> format_size_loop us x = format_size_loop us y.
Proof.
  revert x y. induction us as [|u us IH]; intros x y Heq; cbn [format_size_loop].
  - rewrite (format_2f_comp _ _ Heq). reflexivity.
  - unfold Qltb. rewrite (Qcompare_comp _ _ Heq 1024 1024 (Qeq_refl _)).
    rewrite (format_2f_comp _ _ Heq).
    rewrite (IH (x / 1024) (y / 1024)) by (rewrite Heq; reflexivity).
    reflexivity.
Qed.

(** One turn of the loop on [n / p]. *)
Lemma format_size_loop_step u us (n : Z) (p : positive) :
  format_size_loop (u :: us) (n # p)
  = if (n <? 1024 * Z.pos p)%Z then format_2f (n # p) +:+ " " +:+ u
    else format_size_loop us (n # (1024 * p)).
Proof.
  cbn [format_size_loop]. rewrite Qltb_1024.
  destruct (n <? 1024 * Z.pos p)%Z; [reflexivity |].
  apply format_size_loop_comp, div_1024.
Qed.

Lemma round_half_even_below (x : Q) (c : Z) :
  x < inject_Z c -> (round_half_even x <= c)%Z.
Proof.
  intros Hlt. unfold round_half_even.
  assert (Qfloor x < c)%Z as Hfloor.
  { rewrite Zlt_Qlt. eapply Qle_lt_trans; [apply Qfloor_le | exact Hlt]. }
  destruct (x - inject_Z (Qfloor x) ?= 1 # 2); [destruct (Z.even _) | |]; lia.
Qed.

Ltac eval_powers :=
  repeat match goal with
         | H : context [(1024 ^ Z.of_nat ?k)%Z] |- _ =>
             let v := eval vm_compute in (1024 ^ Z.of_nat k)%Z in
             change (1024 ^ Z.of_nat k)%Z with v in H
         | |- context [(1024 ^ Z.of_nat ?k)%Z] =>
             let v := eval vm_compute in (1024 ^ Z.of_nat k)%Z in
             change (1024 ^ Z.of_nat k)%Z with v
         end.

Ltac loop_step :=
  rewrite format_size_loop_step;
  match goal with
  | |- context [(?n <? ?c)%Z] =>
      let v := eval vm_compute in c in
      change c with v;
      destruct (Z.ltb_spec n v); try lia
  end.

(** X14: [format_size] shows the size divided by [1024^k] with two
    decimals and the name of unit [k], where [k] is 0 (B) for a size below
    1024, negative ones included, 5 (PB) for a size of [1024^5] or more,
    and otherwise the [k] with [1024^k <= size < 1024^(k+1)].  The number
    is rounded after the unit is chosen: below PB a size that is not
    negative is never shown above 1024.00, which is what the sizes just
    under the next unit show.  Stated for the sizes below [2^53], which
    the floats of the source hold exactly. *)
Theorem format_size_unit (size_bytes : Z) (k : nat) :
  (Z.abs size_bytes < 2 ^ 53)%Z ->
  (k <= 5)%nat ->
  (k = 0%nat \/ 1024 ^ Z.of_nat k <= size_bytes)%Z ->
  (k = 5%nat \/ size_bytes < 1024 ^ Z.of_nat (S k))%Z ->
  let shown := inject_Z size_bytes / inject_Z (1024 ^ Z.of_nat k) in
  format_size size_bytes = format_2f shown +:+ " " +:+ unit_name k /\
  ((k < 5)%nat -> (0 <= size_bytes)%Z ->
   (round_half_even (shown * 100) <= 102400)%Z).
Proof.
  intros _ Hk Hlow Hhigh shown. subst shown. split.
  - unfold format_size, units, inject_Z.
    destruct k as [|[|[|[|[|[|k]]]]]]; [| | | | | | lia];
      (destruct Hlow as [Hlow | Hlow]; [try discriminate Hlow |]);
      (destruct Hhigh as [Hhigh | Hhigh]; [try discriminate Hhigh |]);
      eval_powers; repeat loop_step;
      cbn [format_size_loop unit_name nth units];
      (f_equal; apply format_2f_comp; unfold Qeq, Qdiv, Qmult, Qinv;
       cbn [Qnum Qden]; lia).
  - intros Hk5 Hpos. apply round_half_even_below.
    destruct Hhigh as [-> | Hhigh]; [lia |].
    assert (0 < 1024 ^ Z.of_nat k)%Z as Hpow by (apply Z.pow_pos_nonneg; lia).
    rewrite Nat2Z.inj_succ, Z.pow_succ_r in Hhigh by lia.
    destruct (1024 ^ Z.of_nat k)%Z as [|p|p] eqn:Hp; try lia.
    unfold Qlt, Qdiv, Qmult, Qinv, inject_Z. cbn [Qnum Qden]. nia.
Qed.

Lemma format_size_unit_witness :
  format_size 1048575 = "1024.00 KB" /\ format_size 1048576 = "1.00 MB".
Proof.
  split.
  - rewrite (proj1 (format_size_unit 1048575 1 ltac:(lia) ltac:(lia)
                      ltac:(right; vm_compute; discriminate)
                      ltac:(right; vm_compute; reflexivity))).
    vm_compute. reflexivity.
  - rewrite (proj1 (format_size_unit 1048576 2 ltac:(lia) ltac:(lia)
                      ltac:(right; vm_compute; discriminate)
                      ltac:(right; vm_compute; reflexivity))).
    vm_compute. reflexivity.
Defined.

End SystemHandlerFacts.
